(** * FileBuddy ([fb.py]): a shallow embedding of the traversal, matching and
    reporting core, and the properties of it that the specification states.

    Conventions of the embedding.
    - A Python [str] is a [string]; the model covers the ASCII fragment, so
      the class [\d] of the token pattern is the ten ASCII digits.
    - A Python exception is a value of [exn]; code that can raise returns a
      [result], and [try]/[except] is written out with the class it catches.
    - The operating system (directory listing, file sizes, the [shutil]
      operations, the regular-expression engine) is a record [World] of
      functions: the handlers are run against an arbitrary world.  The
      outcome of an operation depends on its arguments only, and a walk is
      the list of the entries it yields. *)

From Stdlib Require Import String Ascii List ZArith NArith Bool Lia.
From stdpp Require Import base option list strings pretty gmap.

Open Scope string_scope.
Open Scope list_scope.
Open Scope nat_scope.

(** ** Python exceptions and results *)

Inductive exn : Type :=
  | IndexError
  | KeyError
  | ShutilError      (* shutil.Error and its subclass SameFileError *)
  | OSError          (* any other OSError: PermissionError, FileNotFoundError, ... *)
  | ValueError       (* str.index on a missing substring, UnicodeDecodeError *)
  | SystemExit.      (* sys.exit: a BaseException, not an Exception *)

Inductive result (A : Type) : Type :=
  | Ok (a : A)
  | Raise (e : exn).
Arguments Ok {A} a.
Arguments Raise {A} e.

Definition rbind {A B} (r : result A) (k : A -> result B) : result B :=
  match r with
  | Ok a => k a
  | Raise e => Raise e
  end.

#[global] Instance result_ret : MRet result := fun _ a => Ok a.
#[global] Instance result_bind : MBind result := fun _ _ k r => rbind r k.

(** [except Exception]: everything but [SystemExit]. *)
Definition is_exception (e : exn) : bool :=
  match e with
  | SystemExit => false
  | _ => true
  end.

(** [except shutil.Error]: the class and its subclasses only. *)
Definition is_shutil_error (e : exn) : bool :=
  match e with
  | ShutilError => true
  | _ => false
  end.

(** ** Strings: the [str] methods the program uses *)

Module Str.

Fixpoint take (n : nat) (s : string) : string :=
  match n, s with
  | S k, String c r => String c (take k r)
  | _, _ => ""
  end.

Fixpoint drop (n : nat) (s : string) : string :=
  match n, s with
  | S k, String _ r => drop k r
  | _, _ => s
  end.

(** [s[a:b]] for non-negative [a], [b] (indices past the end are clamped,
    [a > b] gives the empty string). *)
Definition slice (s : string) (a b : nat) : string := take (b - a) (drop a s).

(** [s[:n]] for any integer [n]: a negative [n] counts from the end. *)
Definition slice_to (s : string) (n : Z) : string :=
  if (n <? 0)%Z then take (String.length s - Z.to_nat (- n)) s
  else take (Z.to_nat n) s.

Definition startswith (s p : string) : bool := String.prefix p s.

Definition endswith (s p : string) : bool :=
  (String.length p <=? String.length s) &&
  String.eqb (drop (String.length s - String.length p) s) p.

(** [sub in s] *)
Fixpoint contains (sub s : string) : bool :=
  String.prefix sub s ||
  match s with
  | "" => false
  | String _ r => contains sub r
  end.

(** [s.index(sub)] when [sub] occurs in [s]: offset of the first occurrence. *)
Fixpoint index (sub s : string) : option nat :=
  if String.prefix sub s then Some 0
  else match s with
       | "" => None
       | String _ r => option_map S (index sub r)
       end.

(** [s.replace(old, new)] for a non-empty [old]: the occurrences are found
    left to right and do not overlap.  [skip] counts the characters of an
    occurrence that are still to be passed over. *)
Fixpoint replace_from (old new s : string) (skip : nat) : string :=
  match s with
  | "" => ""
  | String c r =>
      match skip with
      | S k => replace_from old new r k
      | O => if String.prefix old s
             then new +:+ replace_from old new r (String.length old - 1)
             else String c (replace_from old new r 0)
      end
  end.

Definition replace (s old new : string) : string := replace_from old new s 0.

Fixpoint repeat (c : ascii) (n : nat) : string :=
  match n with
  | O => ""
  | S k => String c (repeat c k)
  end.

End Str.

(** ** Path normalizer *)

Definition fix_path (path : string) : string :=
  Str.replace (Str.replace path "\" "/") "//" "/".

(** ** Pattern engine *)

(** A match object: the subject string, the span of the whole match, and
    the span of each parenthesised group ([None]: the group did not
    participate). *)
Record Match : Type := mkMatch {
  m_string : string;
  m_start : nat;
  m_end : nat;
  m_groups : list (option (nat * nat))
}.

Definition span (m : Match) : nat * nat := (m_start m, m_end m).

Definition split_match (m : Match) : string * string * string :=
  let '(start, end_) := span m in
  let before := Str.take start (m_string m) in
  let match_text := Str.slice (m_string m) start end_ in
  let after := Str.drop end_ (m_string m) in
  (before, match_text, after).

(** [match_obj.group(idx)]: the text of group [idx], [None] for a group that
    did not participate, [IndexError] when there is no such group. *)
Definition group (m : Match) (idx : N) : result (option string) :=
  if (idx =? 0)%N then Ok (Some (Str.slice (m_string m) (m_start m) (m_end m)))
  else if (idx <=? N.of_nat (length (m_groups m)))%N then
    match nth_error (m_groups m) (N.to_nat idx - 1) with
    | Some (Some (a, b)) => Ok (Some (Str.slice (m_string m) a b))
    | _ => Ok None
    end
  else Raise IndexError.

Definition is_digit (c : ascii) : bool :=
  let n := nat_of_ascii c in (48 <=? n) && (n <=? 57).

(** The longest run of digits at the head of [s], and what follows it. *)
Fixpoint span_digits (s : string) : string * string :=
  match s with
  | String c r =>
      if is_digit c then let '(ds, r') := span_digits r in (String c ds, r')
      else ("", s)
  | "" => ("", "")
  end.

(** The pattern [\$\((\d+)\)] anchored at the head of [s]: the text of its
    group 1 when it matches. *)
Definition match_token (s : string) : option string :=
  match s with
  | String c1 (String c2 r) =>
      if Ascii.eqb c1 "$" && Ascii.eqb c2 "(" then
        match span_digits r with
        | (String d ds, String c3 _) =>
            if Ascii.eqb c3 ")" then Some (String d ds) else None
        | _ => None
        end
      else None
  | _ => None
  end.

(** [int(text)] on a run of decimal digits, as an unbounded integer (the
    bound CPython puts on the number of digits it converts is not modelled). *)
Definition int_of_digits (ds : string) : N :=
  fold_left (fun acc c => (acc * 10 + (N.of_nat (nat_of_ascii c) - 48))%N)
            (list_ascii_of_string ds) 0%N.

(** [re.sub(r'\$\((\d+)\)', repl, text)] with a callable [repl]: the
    replacement function receives group 1 of each token; a [None] it returns
    adds nothing to the output, an exception it raises propagates. *)
Fixpoint re_sub_token (repl : string -> result (option string))
         (text : string) (skip : nat) : result string :=
  match text with
  | "" => Ok ""
  | String c r =>
      match skip with
      | S k => re_sub_token repl r k
      | O =>
          match match_token text with
          | Some ds =>
              v ← repl ds;
              rest ← re_sub_token repl r (String.length ds + 2);
              Ok (default "" v +:+ rest)
          | None =>
              rest ← re_sub_token repl r 0; Ok (String c rest)
          end
      end
  end.

Definition group_replacer (match_obj : Match) (ds : string) : result (option string) :=
  let idx := int_of_digits ds in
  match group match_obj idx with
  | Raise IndexError => Ok (Some "")
  | r => r
  end.

Definition regex_sub (match_obj : Match) (text : string) : result string :=
  re_sub_token (group_replacer match_obj) text 0.

(** [re.search]: the engine proper is the anchored matcher [at_ pos], which
    says whether the pattern matches starting at offset [pos] and, if so,
    where the match ends and which groups took part.  The search tries the
    offsets [pos], [pos + 1], ... in turn and stops at the first success. *)
Fixpoint search_from (at_ : nat -> option (nat * list (option (nat * nat))))
         (text : string) (pos n : nat) : option Match :=
  match at_ pos with
  | Some (e, gs) => Some (mkMatch text pos e gs)
  | None =>
      match n with
      | O => None
      | S k => search_from at_ text (S pos) k
      end
  end.

(** ** The world outside the program *)

Record WalkEntry : Type := mkEntry {
  we_root : string;
  we_dirs : list string;
  we_files : list string
}.

Record World : Type := mkWorld {
  (* re.compile(p) succeeds *)
  re_valid : string -> bool;
  (* the anchored matcher of the compiled pattern *)
  re_match_at : string -> string -> nat -> option (nat * list (option (nat * nat)));
  os_path_isdir : string -> bool;
  (* the entries os.walk(top, topdown) yields, in order *)
  os_walk : bool -> string -> list WalkEntry;
  os_path_getsize : string -> result nat;
  (* open(path, 'r', encoding='utf-8').read().splitlines() *)
  read_lines : string -> result (list string);
  os_rename : string -> string -> result unit;
  os_remove : string -> result unit;
  os_rmdir : string -> result unit;
  shutil_copytree : string -> string -> result unit;
  shutil_copy2 : string -> string -> result unit;
  shutil_move : string -> string -> result unit;
  (* open(output_file, 'w') *)
  open_output : string -> result unit;
  (* os.get_terminal_size().columns, or OSError *)
  os_get_terminal_size : result Z;
  (* get_byte_string and get_time_string format floating-point numbers;
     their text is taken as given *)
  get_byte_string : nat -> string;
  elapsed_str : string;
  (* str(e) *)
  exn_str : exn -> string
}.

Definition re_search (w : World) (p text : string) : option Match :=
  search_from (re_match_at w p text) text 0 (String.length text).

Definition get_terminal_width (w : World) : Z :=
  match os_get_terminal_size w with
  | Ok columns => columns
  | Raise _ => 80%Z
  end.

(** ** Command line *)

Inductive Command : Type :=
  | CMD_SEARCH | CMD_LIST | CMD_SIZE | CMD_RENAME | CMD_DELETE | CMD_COPY | CMD_MOVE.

Record Args : Type := mkArgs {
  command : Command;
  options : list string;
  pattern : option string;
  directory : string;
  recursive : bool;
  hidden : bool;            (* -a / --all *)
  verbose : bool;
  output : option string    (* -o, the output file *)
}.

(** Truth value of a pattern: [None] and the empty string are false. *)
Definition truthy (p : option string) : bool :=
  match p with
  | Some (String _ _) => true
  | _ => false
  end.

(** ** Observable actions, and the monad of the handlers *)

Inductive Event : Type :=
  | EvWalk (root : string)          (* the walk yields the entry of [root] *)
  | EvPrint (line : string)         (* print_safe: a line on the terminal *)
  | EvWrite (text : string)         (* output_file.write *)
  | EvGetsize (path : string)
  | EvRead (path : string)
  | EvRename (src dst : string)
  | EvRemove (path : string)
  | EvRmdir (path : string)
  | EvCopytree (src dst : string)
  | EvCopy2 (src dst : string)
  | EvMove (src dst : string)
  | EvSummary (title : string) (rows : list (string * string)).

(** A computation logs the actions it performs, in order, and ends with a
    value or an exception; the log of a computation that raises is kept. *)
Definition M (A : Type) : Type := list Event * result A.

Definition mret {A} (a : A) : M A := ([], Ok a).

Definition mbind' {A B} (m : M A) (k : A -> M B) : M B :=
  match m with
  | (l, Ok a) => let '(l', r) := k a in (l ++ l', r)
  | (l, Raise e) => (l, Raise e)
  end.

#[global] Instance M_ret : MRet M := fun _ a => mret a.
#[global] Instance M_bind : MBind M := fun _ _ k m => mbind' m k.

Definition emit (e : Event) : M unit := ([e], Ok tt).
Definition lift {A} (r : result A) : M A := ([], r).
Definition raise {A} (e : exn) : M A := ([], Raise e).

(** A system call: logged, then its outcome. *)
Definition sys {A} (e : Event) (r : result A) : M A := ([e], r).

(** [try: body  except <class>: handler] *)
Definition try_except {A} (catches : exn -> bool) (body : M A) (handler : exn -> M A) : M A :=
  match body with
  | (l, Raise e) =>
      if catches e then let '(l', r) := handler e in (l ++ l', r)
      else (l, Raise e)
  | done => done
  end.

(** ** Output formatter *)

Definition ESC : string := String (ascii_of_nat 27) "".
Definition NL : string := String (ascii_of_nat 10) "".
Definition DQ : string := String (ascii_of_nat 34) "".
Definition MATCH_COLOR : string := ESC +:+ "[33m".
Definition FILE_COLOR : string := ESC +:+ "[36m".
Definition ERROR_COLOR : string := ESC +:+ "[31m".
Definition SUCCESS_COLOR : string := ESC +:+ "[32m".
Definition INFO_COLOR : string := ESC +:+ "[90m".
Definition RESET_COLOR : string := ESC +:+ "[0m".

(** The [formatted_string] argument of [print_output].  Every call site builds
    it with an f-string: either it ends up with one placeholder [{}], between
    [pre] and [post], or with none.  The texts around the placeholder are
    file names and file lines; the model takes them free of braces, for which
    [str.format] has a meaning of its own. *)
Inductive FormatString : Type :=
  | Plain (text : string)
  | Hole (pre post : string).

(** [formatted_string.format(arg)] *)
Definition format (f : FormatString) (arg : string) : string :=
  match f with
  | Plain text => text
  | Hole pre post => pre +:+ arg +:+ post
  end.

(** [formatted_string.index('{}')]: [ValueError] when there is no placeholder. *)
Definition index_placeholder (f : FormatString) : result nat :=
  match f with
  | Plain _ => Raise ValueError
  | Hole pre _ => Ok (String.length pre)
  end.

(** The terminal branch of [print_output], up to the call of [print_safe]:
    the colored message, truncated when it is longer than the terminal. *)
Definition render_line (term_width : Z) (f : FormatString)
           (match_ color wrapColor : string) : result string :=
  let message := format f (color +:+ match_ +:+ wrapColor) in
  if (term_width <? Z.of_nat (String.length message))%Z then
    idx ← index_placeholder f;
    if (Z.of_nat idx <? term_width - 3)%Z then
      Ok (Str.slice_to message
            (term_width - 3 - Z.of_nat (String.length color)
                            - Z.of_nat (String.length wrapColor)) +:+ "...")
    else
      Ok (Str.slice_to message (term_width - 3) +:+ "...")
  else Ok message.

Definition print_safe (message : string) : M unit := emit (EvPrint message).

Definition print_output (w : World) (a : Args) (f : FormatString)
           (match_ color wrapColor : string) : M unit :=
  match output a with
  | Some _ => emit (EvWrite (format f match_ +:+ NL))
  | None =>
      message ← lift (render_line (get_terminal_width w) f match_ color wrapColor);
      print_safe (wrapColor +:+ message +:+ RESET_COLOR)
  end.

(** [print_output(formatted_string)] with the default arguments. *)
Definition print_line (w : World) (a : Args) (f : FormatString) : M unit :=
  print_output w a f "" MATCH_COLOR RESET_COLOR.

Definition print_error (a : Args) (message : string) : M unit :=
  if negb (verbose a) then mret tt
  else
    let message := "ERROR: " +:+ message in
    match output a with
    | Some _ => emit (EvWrite (message +:+ NL))
    | None => print_safe (ERROR_COLOR +:+ message +:+ RESET_COLOR)
    end.

Definition print_info (a : Args) (message : string) : M unit :=
  if negb (verbose a) then mret tt
  else
    match output a with
    | Some _ => emit (EvWrite (message +:+ NL))
    | None => print_safe (INFO_COLOR +:+ message +:+ RESET_COLOR)
    end.

(** The number of terminal columns a line takes: the characters outside the
    escape sequences [ESC [ ... <letter>]. *)
Fixpoint visible_length_from (in_escape : bool) (s : string) : nat :=
  match s with
  | "" => 0
  | String c r =>
      if in_escape then
        visible_length_from (negb ((64 <=? nat_of_ascii c) && negb (Ascii.eqb c "["))) r
      else if Ascii.eqb c (ascii_of_nat 27) then visible_length_from true r
      else S (visible_length_from false r)
  end.

Definition visible_length (s : string) : nat := visible_length_from false s.

(** ** Summary tables *)

Inductive PyVal : Type :=
  | VInt (n : nat)
  | VStr (s : string).

Definition str_of (v : PyVal) : string :=
  match v with
  | VInt n => pretty n
  | VStr s => s
  end.

(** A [dict] in insertion order. *)
Definition Dict (V : Type) : Type := list (string * V).

(** [d[k] = v]: a known key keeps its place. *)
Fixpoint dict_set {V} (d : Dict V) (k : string) (v : V) : Dict V :=
  match d with
  | [] => [(k, v)]
  | (k', v') :: r =>
      if String.eqb k' k then (k', v) :: r else (k', v') :: dict_set r k v
  end.

Definition Table : Type := string * Dict PyVal.

(** [tables[0][1]['Elapsed Time'] = elapsed_str] *)
Definition inject_elapsed (tables : list Table) (elapsed : string) : result (list Table) :=
  match tables with
  | [] => Raise IndexError
  | (title, results) :: rest =>
      Ok ((title, dict_set results "Elapsed Time" (VStr elapsed)) :: rest)
  end.

(** [print_summary(title, results)]: the box is not modelled, only that the
    table is printed, with the text of its keys and values. *)
Definition print_summary (t : Table) : M unit :=
  emit (EvSummary (fst t) (map (fun kv => (fst kv, str_of (snd kv))) (snd t))).

Fixpoint print_tables (tables : list Table) : M unit :=
  match tables with
  | [] => mret tt
  | t :: rest => _ ← print_summary t; print_tables rest
  end.

(** The box of [print_summary], line by line.  [results] holds the text of
    the keys and of the values, [str(k)] and [str(v)]; the numbers are
    integers as in the source, where a slice index or a repetition count can
    be negative. *)
Definition max_len (xs : list string) : nat :=
  fold_right Nat.max 0 (map String.length xs).

(** [c * n] for a one-character string: empty when [n] is negative. *)
Definition times (c : ascii) (n : Z) : string := Str.repeat c (Z.to_nat n).

(** [s.ljust(width, fill)] *)
Definition ljust (s : string) (width : Z) (fill : ascii) : string :=
  s +:+ times fill (width - Z.of_nat (String.length s)).

Definition print_summary_lines (term_width : Z) (title : string)
           (results : list (string * string)) : list string :=
  let len := fun s : string => Z.of_nat (String.length s) in
  let max_key_len := Z.of_nat (max_len (map fst results)) in
  let max_val_len := Z.of_nat (max_len (map snd results)) in
  let dots_min := 3%Z in
  let side_space := 2%Z in
  let avail := (max_key_len + dots_min + max_val_len)%Z in
  let box_width := (avail + side_space * 2)%Z in
  let title_width := (len title + 2)%Z in
  let box_width := Z.max box_width (title_width + 2) in
  let box_width := Z.min box_width term_width in
  let content_width := (box_width - 2)%Z in
  let title :=
    if (content_width <? len title + 2)%Z
    then Str.slice_to title (content_width - 3) +:+ "..."
    else title in
  let title_pad := ((content_width - len title) / 2)%Z in
  let title_line :=
    "|" +:+ times " " title_pad +:+ title
        +:+ times " " (content_width - len title - title_pad) +:+ "|" in
  let kv_line := fun kv : string * string =>
    let key := fst kv in
    let val := snd kv in
    let max_key := max_key_len in
    let avail_val := (content_width - (max_key + dots_min))%Z in
    let key :=
      if (max_key <? len key)%Z
      then (if (1 <? max_key)%Z then Str.slice_to key (max_key - 1) +:+ "..."
            else Str.slice_to key 1)
      else key in
    let val :=
      if (avail_val <? 1)%Z then Str.slice_to val 1
      else if (avail_val <? len val)%Z
           then (if (1 <? avail_val)%Z then Str.slice_to val (avail_val - 1) +:+ "..."
                 else Str.slice_to val 1)
           else val in
    let dots := times "." dots_min in
    let key_pad := ljust key max_key "." in
    "| " +:+ key_pad +:+ dots +:+ val
         +:+ times " " (content_width - len key_pad - dots_min - len val - 1) +:+ "|" in
  let rule := "+" +:+ times "-" content_width +:+ "+" in
  [rule; title_line; rule] ++ map kv_line results ++ [rule].

(** ** Traversal *)

(** [not hidden and '/.' in root] *)
Definition root_hidden (a : Args) (root : string) : bool :=
  negb (hidden a) && Str.contains "/." root.

(** [not hidden and name.startswith('.')] *)
Definition name_hidden (a : Args) (name : string) : bool :=
  negb (hidden a) && Str.startswith name ".".

(** The loop shared by the handlers:
    [for root, dirs, files in os.walk(...): root = fix_path(root);
     if not hidden and '/.' in root: continue; <body>;
     if not recursive: break]. *)
Fixpoint for_walk {S : Type} (a : Args)
         (body : string -> list string -> list string -> S -> M S)
         (entries : list WalkEntry) (s : S) : M S :=
  match entries with
  | [] => mret s
  | e :: rest =>
      _ ← emit (EvWalk (we_root e));
      let root := fix_path (we_root e) in
      if root_hidden a root then for_walk a body rest s
      else
        s' ← body root (we_dirs e) (we_files e) s;
        if negb (recursive a) then mret s'
        else for_walk a body rest s'
  end.

(** The first pass of [size]: the same loop without the final [break]. *)
Fixpoint for_walk_all {S : Type} (a : Args)
         (body : string -> list string -> list string -> S -> M S)
         (entries : list WalkEntry) (s : S) : M S :=
  match entries with
  | [] => mret s
  | e :: rest =>
      _ ← emit (EvWalk (we_root e));
      let root := fix_path (we_root e) in
      if root_hidden a root then for_walk_all a body rest s
      else
        s' ← body root (we_dirs e) (we_files e) s;
        for_walk_all a body rest s'
  end.

(** [os.path.join(a, b)] with [/] as the separator. *)
Definition os_path_join (a b : string) : string :=
  if Str.startswith b "/" then b
  else if String.eqb a "" || Str.endswith a "/" then a +:+ b
  else a +:+ "/" +:+ b.

(** [print(msg); sys.exit(1)] *)
Definition exit1 {A} (msg : string) : M A := ([EvPrint msg], Raise SystemExit).

(** ** Command handlers *)

(** The text of [-p]; the handlers test it with [truthy] first. *)
Definition pattern_text (a : Args) : string := default "" (pattern a).

Module Search.

(** [for dir in dirs] under [if namePattern]; the state is [results_names]. *)
Fixpoint scan_dirs (w : World) (a : Args) (root : string)
         (dirs : list string) (results_names : list string) : M (list string) :=
  match dirs with
  | [] => mret results_names
  | dir :: rest =>
      if name_hidden a dir then scan_dirs w a root rest results_names
      else
        match re_search w (pattern_text a) dir with
        | Some match_obj =>
            let results_names := results_names ++ [root +:+ "/" +:+ dir +:+ "/"] in
            let '(before, match_text, after) := split_match match_obj in
            _ ← print_output w a (Hole (root +:+ "/" +:+ before) (after +:+ "/"))
                  match_text MATCH_COLOR RESET_COLOR;
            scan_dirs w a root rest results_names
        | None => scan_dirs w a root rest results_names
        end
  end.

(** [for i, line in enumerate(contents)]; the state is
    [(printedFileName, hits)]. *)
Fixpoint scan_lines (w : World) (a : Args) (full_path contentPattern : string)
         (contents : list string) (i : nat)
         (printedFileName : bool) (hits : nat) : M (bool * nat) :=
  match contents with
  | [] => mret (printedFileName, hits)
  | line :: rest =>
      match re_search w contentPattern line with
      | Some match_obj =>
          _ ← (if printedFileName then mret tt
               else print_line w a (Hole full_path ""));
          let '(before, match_text, after) := split_match match_obj in
          _ ← print_output w a
                (Hole ("    " +:+ pretty (i + 1) +:+ ": " +:+ before) after)
                match_text MATCH_COLOR INFO_COLOR;
          scan_lines w a full_path contentPattern rest (S i) true (S hits)
      | None =>
          scan_lines w a full_path contentPattern rest (S i) printedFileName hits
      end
  end.

(** [for file in files]; the state is [(results_names, results_contents)].
    [None] stands for a [continue]. *)
Fixpoint scan_files (w : World) (a : Args) (root contentPattern : string)
         (files : list string) (st : list string * Dict nat)
  : M (list string * Dict nat) :=
  match files with
  | [] => mret st
  | file :: rest =>
      if name_hidden a file then scan_files w a root contentPattern rest st
      else
        let full_path := root +:+ "/" +:+ file in
        named ←
          (if truthy (pattern a) then
             match re_search w (pattern_text a) file with
             | None => mret None
             | Some match_obj =>
                 let '(before, match_text, after) := split_match match_obj in
                 _ ← print_output w a (Hole (root +:+ "/" +:+ before) after)
                       match_text MATCH_COLOR RESET_COLOR;
                 mret (Some (fst st ++ [full_path], true))
             end
           else mret (Some (fst st, false)));
        match named : option (list string * bool) with
        | None => scan_files w a root contentPattern rest st
        | Some (results_names, printedFileName) =>
            scanned ←
              (if String.eqb contentPattern "" then mret (Some (printedFileName, 0))
               else
                 try_except is_exception
                   (contents ← sys (EvRead full_path) (read_lines w full_path);
                    r ← scan_lines w a full_path contentPattern contents 0
                          printedFileName 0;
                    mret (Some r))
                   (fun e =>
                      _ ← print_error a ("Could not read file " +:+ full_path
                                           +:+ ": " +:+ exn_str w e);
                      mret None));
            match scanned : option (bool * nat) with
            | None => scan_files w a root contentPattern rest (results_names, snd st)
            | Some (printedFileName, hits) =>
                scan_files w a root contentPattern rest
                  (results_names,
                   if printedFileName then dict_set (snd st) full_path hits
                   else snd st)
            end
        end
  end.

Record State : Type := mkState {
  results_names : list string;
  results_contents : Dict nat;
  results_count : nat
}.

Definition body (w : World) (a : Args) (contentPattern : string)
           (root : string) (dirs files : list string) (st : State) : M State :=
  let results_count := results_count st + 1 in
  _ ← print_info a ("Searching " +:+ DQ +:+ root +:+ DQ);
  names ← (if truthy (pattern a) then scan_dirs w a root dirs (results_names st)
           else mret (results_names st));
  r ← scan_files w a root contentPattern files (names, results_contents st);
  mret (mkState (fst r) (snd r) results_count).

Definition handler (w : World) (a : Args) (walk : list WalkEntry) : M (list Table) :=
  match options a with
  | [] => exit1 "No search parameters given. Give a regex pattern to search file contents."
  | [contentPattern] =>
      if negb (re_valid w contentPattern) then exit1 "Invalid regex pattern"
      else
        st ← for_walk a (body w a contentPattern) walk (mkState [] [] 0);
        mret [("Summary",
               [("Directories Searched", VInt (results_count st));
                ("Directories Found", VInt (length (results_contents st)));
                ("Files Found", VInt (length (results_names st)));
                ("Hits Found", VInt (list_sum (map snd (results_contents st))))]);
              ("Hits", map (fun kv => (fst kv, VInt (snd kv))) (results_contents st))]
  | _ => exit1 "Too many search parameters given. Give a regex pattern to search file contents."
  end.

End Search.

Module List_.

(** [for dir in dirs]; the state is [results_directory_count]. *)
Fixpoint list_dirs (w : World) (a : Args) (root : string)
         (dirs : list string) (results_directory_count : nat) : M nat :=
  match dirs with
  | [] => mret results_directory_count
  | dir :: rest =>
      if name_hidden a dir then list_dirs w a root rest results_directory_count
      else if truthy (pattern a) then
        match re_search w (pattern_text a) dir with
        | Some _ =>
            _ ← print_line w a (Plain (root +:+ "/" +:+ dir +:+ "/"));
            list_dirs w a root rest results_directory_count
        | None => list_dirs w a root rest results_directory_count
        end
      else
        _ ← print_line w a (Plain (root +:+ "/" +:+ dir +:+ "/"));
        list_dirs w a root rest (results_directory_count + 1)
  end.

(** [for file in files]; the state is [results_file_count]. *)
Fixpoint list_files (w : World) (a : Args) (root : string)
         (files : list string) (results_file_count : nat) : M nat :=
  match files with
  | [] => mret results_file_count
  | file :: rest =>
      if name_hidden a file then list_files w a root rest results_file_count
      else if truthy (pattern a) then
        match re_search w (pattern_text a) file with
        | None => list_files w a root rest results_file_count
        | Some _ =>
            _ ← print_line w a (Plain (root +:+ "/" +:+ file));
            list_files w a root rest (results_file_count + 1)
        end
      else
        _ ← print_line w a (Plain (root +:+ "/" +:+ file));
        list_files w a root rest (results_file_count + 1)
  end.

(** The state is [(results_directory_count, results_file_count)]. *)
Definition body (w : World) (a : Args)
           (root : string) (dirs files : list string) (st : nat * nat) : M (nat * nat) :=
  d ← list_dirs w a root dirs (fst st);
  f ← list_files w a root files (snd st);
  mret (d, f).

Definition handler (w : World) (a : Args) (walk : list WalkEntry) : M (list Table) :=
  match options a with
  | [] =>
      st ← for_walk a (body w a) walk (0, 0);
      mret [("Summary", [("Directory Count", VInt (fst st));
                         ("File Count", VInt (snd st))])]
  | _ => exit1 "Too many search parameters given. Expecting no options."
  end.

End List_.

Module Size.

(** Pass 1, [for dir in dirs]; the state is [rootSize]. *)
Fixpoint add_dirs (a : Args) (results_sizes : gmap string nat) (root : string)
         (dirs : list string) (rootSize : nat) : nat :=
  match dirs with
  | [] => rootSize
  | dir :: rest =>
      if name_hidden a dir then add_dirs a results_sizes root rest rootSize
      else
        let full_path := root +:+ "/" +:+ dir in
        add_dirs a results_sizes root rest
          (rootSize + default 0 (results_sizes !! full_path))
  end.

(** Pass 1, [for file in files]; the state is [(results_sizes, rootSize)]. *)
Fixpoint add_files (w : World) (a : Args) (root : string) (files : list string)
         (st : gmap string nat * nat) : M (gmap string nat * nat) :=
  match files with
  | [] => mret st
  | file :: rest =>
      if name_hidden a file then add_files w a root rest st
      else
        let full_path := root +:+ "/" +:+ file in
        st' ← try_except is_exception
                (size ← sys (EvGetsize full_path) (os_path_getsize w full_path);
                 let rootSize := snd st + size in
                 _ ← print_info a (DQ +:+ full_path +:+ DQ +:+ " => "
                                     +:+ get_byte_string w rootSize);
                 mret (<[full_path := size]> (fst st), rootSize))
                (fun e =>
                   _ ← print_error a ("Could not get size of file " +:+ full_path
                                        +:+ ": " +:+ exn_str w e);
                   mret st);
        add_files w a root rest st'
  end.

Definition body1 (w : World) (a : Args) (root : string) (dirs files : list string)
           (results_sizes : gmap string nat) : M (gmap string nat) :=
  let rootSize := add_dirs a results_sizes root dirs 0 in
  st ← add_files w a root files (results_sizes, rootSize);
  _ ← print_info a (DQ +:+ root +:+ DQ +:+ " => " +:+ get_byte_string w (snd st));
  mret (<[root := snd st]> (fst st)).

(** Pass 2, the two inner loops (they differ by the [/] after a directory). *)
Fixpoint print_sizes (w : World) (a : Args) (results_sizes : gmap string nat)
         (root sep : string) (names : list string) : M unit :=
  match names with
  | [] => mret tt
  | name :: rest =>
      if name_hidden a name then print_sizes w a results_sizes root sep rest
      else if truthy (pattern a) &&
              negb (bool_decide (is_Some (re_search w (pattern_text a) name)))
      then print_sizes w a results_sizes root sep rest
      else
        let full_path := root +:+ "/" +:+ name in
        let size := default 0 (results_sizes !! full_path) in
        _ ← print_line w a (Plain (full_path +:+ sep +:+ " => " +:+ get_byte_string w size));
        print_sizes w a results_sizes root sep rest
  end.

Definition body2 (w : World) (a : Args) (results_sizes : gmap string nat)
           (root : string) (dirs files : list string) (_ : unit) : M unit :=
  _ ← print_sizes w a results_sizes root "/" dirs;
  print_sizes w a results_sizes root "" files.

(** [bottom_up] is what [os.walk(directory, topdown=False)] yields,
    [top_down] what [os.walk(directory)] yields. *)
Definition handler (w : World) (a : Args)
           (bottom_up top_down : list WalkEntry) : M (list Table) :=
  match options a with
  | [] =>
      results_sizes ← for_walk_all a (body1 w a) bottom_up ∅;
      _ ← for_walk a (body2 w a results_sizes) top_down tt;
      mret [("Summary", [])]
  | _ => exit1 "Too many search parameters given. Expecting no options."
  end.

End Size.

Module Rename.

Definition rename (w : World) (a : Args) (root old_name new_name : string) : M bool :=
  if name_hidden a old_name then mret false
  else
    match re_search w (pattern_text a) old_name with
    | None => mret false
    | Some match_obj =>
        let old_path := root +:+ "/" +:+ old_name in
        new ← lift (regex_sub match_obj new_name);
        let new_path := root +:+ "/" +:+ new in
        try_except is_exception
          (_ ← sys (EvRename old_path new_path) (os_rename w old_path new_path);
           _ ← print_line w a (Plain (old_path +:+ " => " +:+ new_path));
           mret true)
          (fun e =>
             _ ← print_error a ("Could not rename directory " +:+ old_path
                                  +:+ ": " +:+ exn_str w e);
             mret false)
    end.

(** [for name in names: if rename(name, new_name): count += 1] *)
Fixpoint rename_all (w : World) (a : Args) (root new_name : string)
         (names : list string) (count : nat) : M nat :=
  match names with
  | [] => mret count
  | name :: rest =>
      ok ← rename w a root name new_name;
      rename_all w a root new_name rest (if ok : bool then count + 1 else count)
  end.

(** The state is [(results_directories, results_files)]. *)
Definition body (w : World) (a : Args) (new_name : string)
           (root : string) (dirs files : list string) (st : nat * nat) : M (nat * nat) :=
  d ← rename_all w a root new_name dirs (fst st);
  f ← rename_all w a root new_name files (snd st);
  mret (d, f).

Definition handler (w : World) (a : Args) (walk : list WalkEntry) : M (list Table) :=
  match options a with
  | [] => exit1 "Not enough options given. Expecting 1 option: <new_name>"
  | [new_name] =>
      if negb (truthy (pattern a))
      then exit1 "No pattern specified. Expecting a pattern to rename files."
      else
        st ← for_walk a (body w a new_name) walk (0, 0);
        mret [("Summary", [("Directories renamed: ", VInt (fst st));
                           ("Files renamed: ", VInt (snd st))])]
  | _ => exit1 "Too many options given. Expecting 1 option: <new_name>"
  end.

End Rename.

Module Delete.

(** [for sub_file in sub_files: os.remove(...)] *)
Fixpoint remove_files (w : World) (a : Args) (sub_root : string)
         (sub_files : list string) : M unit :=
  match sub_files with
  | [] => mret tt
  | sub_file :: rest =>
      let sub_path := os_path_join sub_root sub_file in
      _ ← sys (EvRemove sub_path) (os_remove w sub_path);
      _ ← print_info a ("Deleted file: " +:+ sub_path);
      remove_files w a sub_root rest
  end.

(** [for sub_dir in sub_dirs: os.rmdir(...)] *)
Fixpoint remove_dirs (w : World) (a : Args) (sub_root : string)
         (sub_dirs : list string) : M unit :=
  match sub_dirs with
  | [] => mret tt
  | sub_dir :: rest =>
      let sub_path := os_path_join sub_root sub_dir in
      _ ← sys (EvRmdir sub_path) (os_rmdir w sub_path);
      _ ← print_info a ("Deleted directory: " +:+ sub_path);
      remove_dirs w a sub_root rest
  end.

(** [for sub_root, sub_dirs, sub_files in os.walk(full_path, topdown=False)] *)
Fixpoint remove_tree (w : World) (a : Args) (entries : list WalkEntry) : M unit :=
  match entries with
  | [] => mret tt
  | e :: rest =>
      _ ← emit (EvWalk (we_root e));
      _ ← remove_files w a (we_root e) (we_files e);
      _ ← remove_dirs w a (we_root e) (we_dirs e);
      remove_tree w a rest
  end.

Definition delete (w : World) (a : Args) (root name : string) (directory : bool) : M bool :=
  if name_hidden a name then mret false
  else
    match re_search w (pattern_text a) name with
    | None => mret false
    | Some _ =>
        let full_path := root +:+ "/" +:+ name in
        try_except is_exception
          (_ ← (if directory then
                  _ ← remove_tree w a (os_walk w false full_path);
                  sys (EvRmdir full_path) (os_rmdir w full_path)
                else sys (EvRemove full_path) (os_remove w full_path));
           _ ← print_line w a (Plain full_path);
           mret true)
          (fun e =>
             _ ← print_error a ("Could not rename directory " +:+ name
                                  +:+ ": " +:+ exn_str w e);
             mret false)
    end.

Fixpoint delete_all (w : World) (a : Args) (root : string) (directory : bool)
         (names : list string) (count : nat) : M nat :=
  match names with
  | [] => mret count
  | name :: rest =>
      ok ← delete w a root name directory;
      delete_all w a root directory rest (if ok : bool then count + 1 else count)
  end.

Definition body (w : World) (a : Args)
           (root : string) (dirs files : list string) (st : nat * nat) : M (nat * nat) :=
  d ← delete_all w a root true dirs (fst st);
  f ← delete_all w a root false files (snd st);
  mret (d, f).

Definition handler (w : World) (a : Args) (walk : list WalkEntry) : M (list Table) :=
  match options a with
  | [] =>
      if negb (truthy (pattern a))
      then exit1 "No pattern specified. Expecting a pattern to delete files."
      else
        st ← for_walk a (body w a) walk (0, 0);
        mret [("Summary", [("Directories deleted: ", VInt (fst st));
                           ("Files deleted: ", VInt (snd st))])]
  | _ => exit1 "Too many options given. Expecting no options."
  end.

End Delete.

(** The destination of [move_item], the same in [copy] and in [move]:
    the name is appended to a file's destination that ends with [/] and to
    a directory's destination that is an existing directory. *)
Definition destination_of (w : World) (name destination : string) (is_dir : bool) : string :=
  if negb is_dir && Str.endswith destination "/" then destination +:+ name
  else if is_dir && os_path_isdir w destination then
    if Str.endswith destination "/" then destination +:+ name
    else destination +:+ "/" +:+ name
  else destination.

Module Copy.

Definition move_item (w : World) (a : Args) (root name destination : string)
           (is_dir : bool) : M bool :=
  if name_hidden a name then mret false
  else
    match re_search w (pattern_text a) name with
    | None => mret false
    | Some match_obj =>
        let from_path := root +:+ "/" +:+ name in
        let destination := destination_of w name destination is_dir in
        to_path ← lift (regex_sub match_obj destination);
        copied ←
          (if is_dir then
             try_except is_shutil_error
               (_ ← sys (EvCopytree from_path to_path)
                        (shutil_copytree w from_path to_path);
                mret true)
               (fun e =>
                  _ ← print_error a ("Could not copy directory " +:+ from_path
                                       +:+ " to " +:+ to_path +:+ ": " +:+ exn_str w e);
                  mret false)
           else
             try_except is_shutil_error
               (_ ← sys (EvCopy2 from_path to_path)
                        (shutil_copy2 w from_path to_path);
                mret true)
               (fun e =>
                  _ ← print_error a ("Could not copy file " +:+ from_path
                                       +:+ " to " +:+ to_path +:+ ": " +:+ exn_str w e);
                  mret false));
        if copied : bool then
          _ ← print_line w a (Plain (from_path +:+ " => " +:+ to_path));
          mret true
        else mret false
    end.

Fixpoint move_all (w : World) (a : Args) (root output_path : string) (is_dir : bool)
         (names : list string) (count : nat) : M nat :=
  match names with
  | [] => mret count
  | name :: rest =>
      ok ← move_item w a root name output_path is_dir;
      move_all w a root output_path is_dir rest (if ok : bool then count + 1 else count)
  end.

Definition body (w : World) (a : Args) (output_path : string)
           (root : string) (dirs files : list string) (st : nat * nat) : M (nat * nat) :=
  d ← move_all w a root output_path true dirs (fst st);
  f ← move_all w a root output_path false files (snd st);
  mret (d, f).

Definition handler (w : World) (a : Args) (walk : list WalkEntry) : M (list Table) :=
  match options a with
  | [] => exit1 "Not enough options given. Expecting 1 option: <output_dir|output_file>"
  | [output_path] =>
      if negb (truthy (pattern a))
      then exit1 "No pattern specified. Expecting a pattern to copy files."
      else
        st ← for_walk a (body w a output_path) walk (0, 0);
        mret [("Summary", [("Directories copied: ", VInt (fst st));
                           ("Files copied: ", VInt (snd st))])]
  | _ => exit1 "Too many options given. Expecting 1 option: <output_dir|output_file>"
  end.

End Copy.

Module Move.

Definition move_item (w : World) (a : Args) (root name destination : string)
           (is_dir : bool) : M bool :=
  if name_hidden a name then mret false
  else
    match re_search w (pattern_text a) name with
    | None => mret false
    | Some match_obj =>
        let from_path := root +:+ "/" +:+ name in
        let destination := destination_of w name destination is_dir in
        to_path ← lift (regex_sub match_obj destination);
        moved ←
          try_except is_shutil_error
            (_ ← sys (EvMove from_path to_path) (shutil_move w from_path to_path);
             mret true)
            (fun e =>
               _ ← print_error a ("Could not move directory " +:+ from_path
                                    +:+ " to " +:+ to_path +:+ ": " +:+ exn_str w e);
               mret false);
        if moved : bool then
          _ ← print_line w a (Plain (from_path +:+ " => " +:+ to_path));
          mret true
        else mret false
    end.

Fixpoint move_all (w : World) (a : Args) (root output_path : string) (is_dir : bool)
         (names : list string) (count : nat) : M nat :=
  match names with
  | [] => mret count
  | name :: rest =>
      ok ← move_item w a root name output_path is_dir;
      move_all w a root output_path is_dir rest (if ok : bool then count + 1 else count)
  end.

Definition body (w : World) (a : Args) (output_path : string)
           (root : string) (dirs files : list string) (st : nat * nat) : M (nat * nat) :=
  d ← move_all w a root output_path true dirs (fst st);
  f ← move_all w a root output_path false files (snd st);
  mret (d, f).

Definition handler (w : World) (a : Args) (walk : list WalkEntry) : M (list Table) :=
  match options a with
  | [] => exit1 "Not enough options given. Expecting 1 option: <output_dir|output_file>"
  | [output_path] =>
      if negb (truthy (pattern a))
      then exit1 "No pattern specified. Expecting a pattern to move files."
      else
        st ← for_walk a (body w a output_path) walk (0, 0);
        mret [("Summary", [("Directories moved: ", VInt (fst st));
                           ("Files moved: ", VInt (snd st))])]
  | _ => exit1 "Too many options given. Expecting 1 option: <output_dir|output_file>"
  end.

End Move.

(** ** The run *)

(** The branch of [main] for the command: the tables it appends to the
    initially empty [tables].  [top_down] and [bottom_up] are the entries
    the walks of [directory] yield. *)
Definition run_command (w : World) (a : Args)
           (top_down bottom_up : list WalkEntry) : M (list Table) :=
  match command a with
  | CMD_SEARCH => Search.handler w a top_down
  | CMD_LIST => List_.handler w a top_down
  | CMD_SIZE => Size.handler w a bottom_up top_down
  | CMD_RENAME => Rename.handler w a top_down
  | CMD_DELETE => Delete.handler w a top_down
  | CMD_COPY => Copy.handler w a top_down
  | CMD_MOVE => Move.handler w a top_down
  end.

(** What follows the branch: the elapsed time goes into the first table,
    then every table is printed. *)
Definition finish (w : World) (tables : list Table) : M (list Table) :=
  tables ← lift (inject_elapsed tables (elapsed_str w));
  _ ← print_tables tables;
  mret tables.

Definition main (w : World) (a : Args) : M (list Table) :=
  _ ← match pattern a with
      | Some p => if re_valid w p then mret tt else exit1 "Invalid regex pattern"
      | None => mret tt
      end;
  _ ← (if os_path_isdir w (directory a) then mret tt
       else exit1 ("Directory '" +:+ directory a +:+ "' does not exist."));
  _ ← match output a with
      | Some output_file =>
          try_except is_exception (lift (open_output w output_file))
            (fun e => exit1 ("Could not open output file '" +:+ output_file +:+ "'"))
      | None => mret tt
      end;
  tables ← run_command w a (os_walk w true (directory a)) (os_walk w false (directory a));
  finish w tables.

(** ** A directory tree and its walk *)

(** A directory: its name, its subdirectories and the names of its files,
    both in listing order. *)
#[warning="-register-all"] Inductive Tree : Type :=
  | Dir (name : string) (subdirs : list Tree) (files : list string).

Definition dir_name (t : Tree) : string :=
  match t with Dir n _ _ => n end.

(** [os.walk(top)] on a tree that does not change during the walk: a
    directory first, then the walk of each subdirectory. *)
Fixpoint walk_top_down (top : string) (t : Tree) : list WalkEntry :=
  match t with
  | Dir _ ds fs =>
      mkEntry top (map dir_name ds) fs ::
      flat_map (fun d => walk_top_down (os_path_join top (dir_name d)) d) ds
  end.

(** [os.walk(top, topdown=False)]: the subdirectories first. *)
Fixpoint walk_bottom_up (top : string) (t : Tree) : list WalkEntry :=
  match t with
  | Dir _ ds fs =>
      flat_map (fun d => walk_bottom_up (os_path_join top (dir_name d)) d) ds
      ++ [mkEntry top (map dir_name ds) fs]
  end.

(** ** [shutil.copy2] and where the copy is written *)

(** [os.path.basename]: what follows the last [/]. *)
Fixpoint basename (p : string) : string :=
  match p with
  | "" => ""
  | String c r =>
      if Str.contains "/" r then basename r
      else if Ascii.eqb c "/" then r else p
  end.

(** The first step of [shutil.copy2(src, dst)]:
    [if os.path.isdir(dst): dst = os.path.join(dst, os.path.basename(src))].
    The file is then written at the path this gives. *)
Definition copy2_target (w : World) (src dst : string) : string :=
  if os_path_isdir w dst then os_path_join dst (basename src) else dst.

(** ** Worlds to run the handlers in *)

(** A matcher for patterns without metacharacters: the pattern matches at
    [pos] when the text continues with it there. *)
Definition literal_at (p text : string) (pos : nat)
  : option (nat * list (option (nat * nat))) :=
  if String.prefix p (Str.drop pos text) then Some (pos + String.length p, [])
  else None.

(** A world over the tree [t] found at [top], in which every operation
    succeeds, every file has [size] bytes and no line, and the directories
    are those of [dirs]. *)
Definition world_of (top : string) (t : Tree) (dirs : list string)
           (size : nat) (columns : Z) : World :=
  {| re_valid := fun _ => true;
     re_match_at := literal_at;
     os_path_isdir := fun p => bool_decide (p ∈ dirs);
     os_walk := fun topdown d =>
       if String.eqb d top
       then (if topdown then walk_top_down top t else walk_bottom_up top t)
       else [];
     os_path_getsize := fun _ => Ok size;
     read_lines := fun _ => Ok [];
     os_rename := fun _ _ => Ok tt;
     os_remove := fun _ => Ok tt;
     os_rmdir := fun _ => Ok tt;
     shutil_copytree := fun _ _ => Ok tt;
     shutil_copy2 := fun _ _ => Ok tt;
     shutil_move := fun _ _ => Ok tt;
     open_output := fun _ => Ok tt;
     os_get_terminal_size := Ok columns;
     get_byte_string := fun n => pretty n +:+ ".00 B";
     elapsed_str := "00:00:00.0000";
     exn_str := fun _ => "error" |}.

(** The same world, where renaming, copying or moving the entry [bad] raises
    the exception [e]. *)
Definition with_failing (w : World) (bad : string) (e : exn) : World :=
  {| re_valid := re_valid w;
     re_match_at := re_match_at w;
     os_path_isdir := os_path_isdir w;
     os_walk := os_walk w;
     os_path_getsize := os_path_getsize w;
     read_lines := read_lines w;
     os_rename := fun src dst =>
       if String.eqb src bad then Raise e else os_rename w src dst;
     os_remove := os_remove w;
     os_rmdir := os_rmdir w;
     shutil_copytree := fun src dst =>
       if String.eqb src bad then Raise e else shutil_copytree w src dst;
     shutil_copy2 := fun src dst =>
       if String.eqb src bad then Raise e else shutil_copy2 w src dst;
     shutil_move := fun src dst =>
       if String.eqb src bad then Raise e else shutil_move w src dst;
     open_output := open_output w;
     os_get_terminal_size := os_get_terminal_size w;
     get_byte_string := get_byte_string w;
     elapsed_str := elapsed_str w;
     exn_str := exn_str w |}.

(** A directory with two files. *)
Definition two_files : Tree := Dir "." [] ["a.txt"; "b.txt"].

Definition abc_match : Match :=
  mkMatch "abc" 0 3 [Some (0, 1); Some (1, 3)].

(** A root with one file and one subdirectory that holds one file. *)
Definition small_tree : Tree :=
  Dir "." [Dir "sub" [] ["inner.txt"]] ["top.txt"].

Definition args0 (c : Command) : Args :=
  mkArgs c [] None "." false false false None.

(** ** Vocabulary of the statements *)

(** The text the token [$(k)] stands for: capture group [k] of the match
    (group 0 is the whole match), and nothing when the match has no group
    [k] or the group did not participate. *)
Definition capture (m : Match) (k : N) : string :=
  if (k =? 0)%N then Str.slice (m_string m) (m_start m) (m_end m)
  else match nth_error (m_groups m) (N.to_nat k - 1) with
       | Some (Some (a, b)) => Str.slice (m_string m) a b
       | _ => ""
       end.

Fixpoint all_digits (s : string) : bool :=
  match s with
  | "" => true
  | String c r => is_digit c && all_digits r
  end.

(** The token [$(d)] for a text [d]. *)
Definition token (ds : string) : string := "$(" +:+ ds +:+ ")".

(** The template contains a token: [$(], one or more digits, [)]. *)
Definition has_token (t : string) : Prop :=
  exists pre ds rest,
    ds <> "" /\ all_digits ds = true /\ t = pre +:+ token ds +:+ rest.

(** No token starts at any offset of [t]. *)
Fixpoint token_free (t : string) : bool :=
  match t with
  | "" => true
  | String _ r =>
      match match_token t with
      | Some _ => false
      | None => token_free r
      end
  end.

(** The two steps of [fix_path]. *)
Definition slash1 (s : string) : string := Str.replace s "\" "/".
Definition slash2 (s : string) : string := Str.replace s "//" "/".

(** A path separator before normalization: [/] or [\]. *)
Definition is_sep (c : ascii) : bool := Ascii.eqb "/" c || Ascii.eqb "\" c.

Definition hd_sep (s : string) : bool :=
  match s with
  | String c _ => is_sep c
  | "" => false
  end.

Definition hd_slash (s : string) : bool :=
  match s with
  | String c _ => Ascii.eqb "/" c
  | "" => false
  end.

Definition tail (s : string) : string :=
  match s with
  | String _ r => r
  | "" => ""
  end.

(** No three separators in a row. *)
Fixpoint no_triple_sep (s : string) : bool :=
  match s with
  | "" => true
  | String c r => negb (is_sep c && hd_sep r && hd_sep (tail r)) && no_triple_sep r
  end.

(** No [///]. *)
Fixpoint no_triple_slash (s : string) : bool :=
  match s with
  | "" => true
  | String c r =>
      negb (Ascii.eqb "/" c && hd_slash r && hd_slash (tail r)) && no_triple_slash r
  end.

(** No [//]. *)
Fixpoint no_double_slash (s : string) : bool :=
  match s with
  | "" => true
  | String c r => negb (Ascii.eqb "/" c && hd_slash r) && no_double_slash r
  end.

Fixpoint no_backslash (s : string) : bool :=
  match s with
  | "" => true
  | String c r => negb (Ascii.eqb "\" c) && no_backslash r
  end.

(** ** Further vocabulary *)

(** No operation of the world raises [SystemExit]: only [sys.exit] does. *)
Definition no_system_exit (w : World) : Prop :=
  (forall src dst, os_rename w src dst <> Raise SystemExit) /\
  (forall p, os_remove w p <> Raise SystemExit) /\
  (forall p, os_rmdir w p <> Raise SystemExit) /\
  (forall src dst, shutil_copytree w src dst <> Raise SystemExit) /\
  (forall src dst, shutil_copy2 w src dst <> Raise SystemExit) /\
  (forall src dst, shutil_move w src dst <> Raise SystemExit) /\
  (forall p, os_path_getsize w p <> Raise SystemExit) /\
  (forall p, read_lines w p <> Raise SystemExit).

(** A computation does not end with [SystemExit]. *)
Definition no_exit {A : Type} (m : M A) : Prop := snd m <> Raise SystemExit.

(** [re.search(pattern, text)] finds a match. *)
Definition matches (w : World) (p text : string) : bool :=
  match re_search w p text with
  | Some _ => true
  | None => false
  end.

(** The names [rename], [delete] and [move_item] act on: not hidden, and
    matched by the pattern. *)
Definition selected (w : World) (a : Args) (name : string) : bool :=
  negb (name_hidden a name) && matches w (pattern_text a) name.

(** The names [list] prints: not hidden and, when there is a pattern,
    matched by it. *)
Definition listed (w : World) (a : Args) (name : string) : bool :=
  negb (name_hidden a name) &&
  (negb (truthy (pattern a)) || matches w (pattern_text a) name).

(** No escape character. *)
Fixpoint no_escape (s : string) : bool :=
  match s with
  | "" => true
  | String c r => negb (Ascii.eqb c (ascii_of_nat 27)) && no_escape r
  end.

(** The number of positional options a command takes, and whether it needs
    a pattern. *)
Definition options_expected (c : Command) : nat :=
  match c with
  | CMD_SEARCH | CMD_RENAME | CMD_COPY | CMD_MOVE => 1
  | CMD_LIST | CMD_SIZE | CMD_DELETE => 0
  end.

Definition needs_pattern (c : Command) : bool :=
  match c with
  | CMD_RENAME | CMD_DELETE | CMD_COPY | CMD_MOVE => true
  | CMD_SEARCH | CMD_LIST | CMD_SIZE => false
  end.

(** The errors [main] reports before it walks: a pattern that does not
    compile, a directory that is not one, an output file that cannot be
    opened, a wrong number of options, a missing pattern. *)
Definition fatal_error (w : World) (a : Args) : Prop :=
  (exists p, pattern a = Some p /\ re_valid w p = false) \/
  os_path_isdir w (directory a) = false \/
  (exists f e, output a = Some f /\ open_output w f = Raise e) \/
  length (options a) <> options_expected (command a) \/
  (needs_pattern (command a) = true /\ truthy (pattern a) = false) \/
  (exists p, command a = CMD_SEARCH /\ options a = [p] /\ re_valid w p = false).

(** A character that can stand inside a token, after its [$]. *)
Definition token_inner (c : ascii) : bool :=
  Ascii.eqb c "(" || is_digit c || Ascii.eqb c ")".

(** The size [size] counts for a file: what [os.path.getsize] returns, and
    nothing when it raises. *)
Definition file_size (w : World) (path : string) : nat :=
  match os_path_getsize w path with
  | Ok n => n
  | Raise _ => 0
  end.

(** The bytes of the files of a tree found at [top], at any depth. *)
Fixpoint tree_size (w : World) (top : string) (t : Tree) : nat :=
  match t with
  | Dir _ ds fs =>
      list_sum (map (fun d => tree_size w (top +:+ "/" +:+ dir_name d) d) ds) +
      list_sum (map (fun f => file_size w (top +:+ "/" +:+ f)) fs)
  end.

(** A directory name: not empty, no separator in it. *)
Definition good_name (n : string) : bool :=
  negb (String.eqb n "") && negb (Str.contains "/" n) && negb (Str.contains "\" n).

(** The names in every directory of the tree are good and differ from one
    another (a file and a subdirectory do not share a name either). *)
Fixpoint good_tree (t : Tree) : Prop :=
  match t with
  | Dir _ ds fs =>
      NoDup (map dir_name ds ++ fs) /\
      forallb good_name fs = true /\
      fold_right (fun d acc => (good_name (dir_name d) = true /\ good_tree d) /\ acc)
                 True ds
  end.

Definition subdirs (t : Tree) : list Tree :=
  match t with Dir _ ds _ => ds end.

Definition files (t : Tree) : list string :=
  match t with Dir _ _ fs => fs end.

(** The last character is a slash. *)
Fixpoint ends_slash (s : string) : bool :=
  match s with
  | "" => false
  | String c r =>
      match r with
      | "" => Ascii.eqb c "/"
      | String _ _ => ends_slash r
      end
  end.

(** A normalized path that does not end with a separator. *)
Definition good_path (top : string) : Prop :=
  top <> "" /\ no_backslash top = true /\ no_double_slash top = true /\
  ends_slash top = false.

(** The path [k] is [top] or lies below it. *)
Definition under (top k : string) : Prop :=
  k = top \/ String.prefix (top +:+ "/") k = true.

Fixpoint Tree_ind' (P : Tree -> Prop)
         (H : forall n ds fs, Forall P ds -> P (Dir n ds fs)) (t : Tree) : P t :=
  match t with
  | Dir n ds fs =>
      H n ds fs
        ((fix go (l : list Tree) : Forall P l :=
            match l with
            | [] => @List.Forall_nil Tree P
            | d :: l' => @List.Forall_cons Tree P d l' (Tree_ind' P H d) (go l')
            end) ds)
  end.

(** The [shutil] operations of the world fail with [shutil.Error] only. *)
Definition shutil_errors_only (w : World) : Prop :=
  (forall src dst e, shutil_copytree w src dst = Raise e -> is_shutil_error e = true) /\
  (forall src dst e, shutil_copy2 w src dst = Raise e -> is_shutil_error e = true) /\
  (forall src dst e, shutil_move w src dst = Raise e -> is_shutil_error e = true).

(** * Properties *)

(** ** Strings *)

Lemma append_cons (c : ascii) (s t : string) : String c s +:+ t = String c (s +:+ t).
Proof. reflexivity. Qed.

Lemma append_nil_l (s : string) : "" +:+ s = s.
Proof. reflexivity. Qed.

Lemma append_nil_r (s : string) : s +:+ "" = s.
Proof.
  induction s as [|c s IH]; [reflexivity|]. now rewrite append_cons, IH.
Qed.

Lemma append_assoc (s1 s2 s3 : string) : (s1 +:+ s2) +:+ s3 = s1 +:+ (s2 +:+ s3).
Proof.
  induction s1 as [|c s1 IH]; [reflexivity|]. now rewrite !append_cons, IH.
Qed.

Lemma length_append (s1 s2 : string) :
  String.length (s1 +:+ s2) = String.length s1 + String.length s2.
Proof.
  induction s1 as [|c s1 IH]; [reflexivity|].
  rewrite append_cons. simpl. now rewrite IH.
Qed.

Lemma take_drop (n : nat) (s : string) : Str.take n s +:+ Str.drop n s = s.
Proof.
  revert s; induction n as [|n IH]; intros [|c s]; simpl; try reflexivity.
  now rewrite append_cons, IH.
Qed.

Lemma drop_drop (n m : nat) (s : string) :
  Str.drop m (Str.drop n s) = Str.drop (n + m) s.
Proof.
  revert s; induction n as [|n IH]; intros s; simpl; [reflexivity|].
  destruct s as [|c s]; [now destruct m | apply IH].
Qed.

Lemma prefix_nil (s : string) : String.prefix "" s = true.
Proof. now destruct s. Qed.

Lemma prefix_cons (a b : ascii) (s1 s2 : string) :
  String.prefix (String a s1) (String b s2) = Ascii.eqb a b && String.prefix s1 s2.
Proof.
  simpl. destruct (ascii_dec a b) as [->|Hne].
  - now rewrite Ascii.eqb_refl.
  - apply Ascii.eqb_neq in Hne. now rewrite Hne.
Qed.

(** ** The three-way split and the search *)

Lemma split_match_concat (m : Match) :
  m_start m <= m_end m ->
  let '(before, match_text, after) := split_match m in
  before +:+ match_text +:+ after = m_string m.
Proof.
  intros Hle. unfold split_match, span, Str.slice.
  replace (Str.drop (m_end m) (m_string m))
    with (Str.drop (m_end m - m_start m) (Str.drop (m_start m) (m_string m))).
  - now rewrite !take_drop.
  - rewrite drop_drop. f_equal. lia.
Qed.

Lemma search_from_Some at_ text pos n m :
  search_from at_ text pos n = Some m ->
  m_string m = text /\ pos <= m_start m <= pos + n /\
  at_ (m_start m) = Some (m_end m, m_groups m) /\
  forall q, pos <= q < m_start m -> at_ q = None.
Proof.
  revert pos; induction n as [|n IH]; intros pos; simpl;
    destruct (at_ pos) as [[e gs]|] eqn:Hat.
  - intros [= <-]; simpl. repeat split; auto; intros; lia.
  - discriminate.
  - intros [= <-]; simpl. repeat split; auto; intros; lia.
  - intros H. destruct (IH _ H) as (Hs & Hr & Hm & Hleft).
    split; [assumption|]. split; [lia|]. split; [assumption|].
    intros q Hq. destruct (Nat.eq_dec q pos) as [->|Hne]; [assumption|].
    apply Hleft; lia.
Qed.

Lemma search_from_None at_ text pos n :
  search_from at_ text pos n = None ->
  forall q, pos <= q <= pos + n -> at_ q = None.
Proof.
  revert pos; induction n as [|n IH]; intros pos; simpl;
    destruct (at_ pos) as [[e gs]|] eqn:Hat; try discriminate.
  - intros _ q Hq. now replace q with pos by lia.
  - intros H q Hq. destruct (Nat.eq_dec q pos) as [->|Hne]; [assumption|].
    apply (IH _ H); lia.
Qed.

(** C7. For a pattern [p] and a text [t], [re.search] returns the leftmost
    match (the engine matches at the start of the match and at no offset
    before it), the three parts [split_match] cuts the text into give the
    text back when concatenated, and when the pattern matches nowhere the
    result is [None], not an exception.  The engine is any anchored matcher
    whose matches end at or after where they start. *)
Theorem re_search_leftmost_split (w : World) (p t : string) :
  (forall pos e gs, re_match_at w p t pos = Some (e, gs) -> pos <= e) ->
  match re_search w p t with
  | Some m =>
      m_string m = t /\
      m_start m <= String.length t /\
      re_match_at w p t (m_start m) = Some (m_end m, m_groups m) /\
      (forall q, q < m_start m -> re_match_at w p t q = None) /\
      (let '(before, match_text, after) := split_match m in
       before = Str.take (m_start m) t /\
       before +:+ match_text +:+ after = t)
  | None => forall q, q <= String.length t -> re_match_at w p t q = None
  end.
Proof.
  intros Hwf. unfold re_search.
  destruct (search_from _ t 0 (String.length t)) as [m|] eqn:Hs.
  - destruct (search_from_Some _ _ _ _ _ Hs) as (Hstr & Hr & Hm & Hleft).
    split; [assumption|]. split; [lia|]. split; [assumption|]. split.
    + intros q Hq. apply Hleft; lia.
    + pose proof (split_match_concat m (Hwf _ _ _ Hm)) as Hc.
      unfold split_match, span in *. rewrite Hstr in *. split; [reflexivity | exact Hc].
  - intros q Hq. apply (search_from_None _ _ _ _ Hs); lia.
Qed.

Lemma literal_at_ordered (p text : string) (pos e : nat) gs :
  literal_at p text pos = Some (e, gs) -> pos <= e.
Proof.
  unfold literal_at. destruct (String.prefix _ _); [|discriminate].
  intros [= <- _]. lia.
Qed.

Lemma re_search_leftmost_split_witness :
  let w := world_of "." small_tree ["."] 0 80 in
  m_start <$> re_search w "b" "abcb" = Some 1 /\
  match re_search w "b" "abcb" with
  | Some m =>
      m_string m = "abcb" /\
      m_start m <= String.length "abcb" /\
      re_match_at w "b" "abcb" (m_start m) = Some (m_end m, m_groups m) /\
      (forall q, q < m_start m -> re_match_at w "b" "abcb" q = None) /\
      (let '(before, match_text, after) := split_match m in
       before = Str.take (m_start m) "abcb" /\
       before +:+ match_text +:+ after = "abcb")
  | None => forall q, q <= String.length "abcb" -> re_match_at w "b" "abcb" q = None
  end.
Proof.
  split; [reflexivity|].
  apply (re_search_leftmost_split (world_of "." small_tree ["."] 0 80) "b" "abcb").
  intros pos e gs. apply literal_at_ordered.
Defined.

(** ** Template substitution *)

Lemma span_digits_spec (s ds r : string) :
  span_digits s = (ds, r) -> s = ds +:+ r /\ all_digits ds = true.
Proof.
  revert ds r; induction s as [|c s IH]; simpl; intros ds r.
  - intros [= <- <-]. now split.
  - destruct (is_digit c) eqn:Hc.
    + destruct (span_digits s) as [ds' r'] eqn:Hs. intros [= <- <-].
      destruct (IH _ _ eq_refl) as [-> Hall]. simpl. rewrite Hc, Hall. now split.
    + intros [= <- <-]. now split.
Qed.

Lemma span_digits_app (ds : string) (c : ascii) (y : string) :
  all_digits ds = true -> is_digit c = false ->
  span_digits (ds +:+ String c y) = (ds, String c y).
Proof.
  intros Hall Hc. induction ds as [|d ds IH]; simpl.
  - now rewrite Hc.
  - simpl in Hall. apply andb_prop in Hall as [Hd Hall].
    rewrite Hd. change (span_digits (ds +:+ String c y)) with (span_digits (ds +:+ String c y)).
    now rewrite (IH Hall).
Qed.

Lemma span_digits_app_stop (r : string) (c : ascii) (y : string) :
  is_digit c = false ->
  span_digits (r +:+ String c y) =
  (fst (span_digits r), snd (span_digits r) +:+ String c y).
Proof.
  intros Hc. induction r as [|d r IH]; simpl.
  - now rewrite Hc.
  - destruct (is_digit d).
    + change (span_digits (r +:+ String c y)) with (span_digits (r +:+ String c y)).
      rewrite IH. now destruct (span_digits r).
    + reflexivity.
Qed.

Lemma match_token_token (ds rest : string) :
  ds <> "" -> all_digits ds = true ->
  match_token (token ds +:+ rest) = Some ds.
Proof.
  intros Hne Hall. unfold token. rewrite !append_assoc.
  change (match_token (String "$" (String "(" (ds +:+ String ")" rest))) = Some ds).
  unfold match_token. simpl (Ascii.eqb _ _ && _).
  rewrite (span_digits_app ds ")" rest Hall eq_refl).
  destruct ds; [congruence | reflexivity].
Qed.

Lemma match_token_Some (s ds : string) :
  match_token s = Some ds ->
  exists rest, s = token ds +:+ rest /\ ds <> "" /\ all_digits ds = true.
Proof.
  destruct s as [|c1 [|c2 r]]; simpl; try discriminate.
  destruct (Ascii.eqb c1 "$") eqn:H1; [|discriminate].
  destruct (Ascii.eqb c2 "(") eqn:H2; [|discriminate]. simpl.
  apply Ascii.eqb_eq in H1, H2. subst c1 c2.
  destruct (span_digits r) as [[|d ds'] [|c3 r']] eqn:Hs; try discriminate.
  destruct (Ascii.eqb c3 ")") eqn:H3; [|discriminate].
  apply Ascii.eqb_eq in H3. subst c3. intros [= <-].
  destruct (span_digits_spec _ _ _ Hs) as [-> Hall].
  exists r'. split; [|split; [discriminate | exact Hall]].
  unfold token. now rewrite !append_assoc.
Qed.

Lemma match_token_app_dollar (s y : string) :
  s <> "" -> match_token (s +:+ String "$" y) = match_token s.
Proof.
  destruct s as [|c1 [|c2 r]]; [congruence | |]; intros _.
  - change (match_token (String c1 (String "$" y)) = None).
    unfold match_token. simpl (Ascii.eqb "$" "("). now rewrite andb_false_r.
  - change (match_token (String c1 (String c2 (r +:+ String "$" y)))
            = match_token (String c1 (String c2 r))).
    unfold match_token. destruct (Ascii.eqb c1 "$" && Ascii.eqb c2 "("); [|reflexivity].
    rewrite (span_digits_app_stop r "$" y eq_refl).
    destruct (span_digits r) as [[|d ds] [|c3 r']]; reflexivity.
Qed.

Lemma re_sub_token_cons repl (c : ascii) (r : string) :
  re_sub_token repl (String c r) 0 =
  match match_token (String c r) with
  | Some ds =>
      rbind (repl ds) (fun v =>
        rbind (re_sub_token repl r (String.length ds + 2))
              (fun rest => Ok (default "" v +:+ rest)))
  | None => rbind (re_sub_token repl r 0) (fun rest => Ok (String c rest))
  end.
Proof. reflexivity. Qed.

Lemma re_sub_token_skip repl (x rest : string) :
  re_sub_token repl (x +:+ rest) (String.length x) = re_sub_token repl rest 0.
Proof.
  induction x as [|c x IH]; [reflexivity|]. rewrite append_cons. exact IH.
Qed.

Lemma re_sub_token_head repl (ds rest : string) :
  ds <> "" -> all_digits ds = true ->
  re_sub_token repl (token ds +:+ rest) 0 =
  rbind (repl ds) (fun v =>
    rbind (re_sub_token repl rest 0) (fun out => Ok (default "" v +:+ out))).
Proof.
  intros Hne Hall. pose proof (match_token_token ds rest Hne Hall) as Hm.
  unfold token in *. rewrite !append_assoc in *.
  change ("$(" +:+ ds +:+ ")" +:+ rest)
    with (String "$" (String "(" (ds +:+ ")" +:+ rest))) in *.
  rewrite re_sub_token_cons, Hm.
  replace (String "(" (ds +:+ ")" +:+ rest)) with (("(" +:+ ds +:+ ")") +:+ rest)
    by now rewrite !append_assoc.
  replace (String.length ds + 2) with (String.length ("(" +:+ ds +:+ ")")).
  - now rewrite re_sub_token_skip.
  - rewrite !length_append. simpl. lia.
Qed.

Lemma re_sub_token_literal repl (pre x : string) :
  token_free pre = true ->
  x = "" \/ (exists y, x = String "$" y) ->
  re_sub_token repl (pre +:+ x) 0 =
  rbind (re_sub_token repl x 0) (fun out => Ok (pre +:+ out)).
Proof.
  intros Hfree Hx. induction pre as [|c pre IH].
  - rewrite append_nil_l. now destruct (re_sub_token repl x 0).
  - cbn [token_free] in Hfree.
    destruct (match_token (String c pre)) eqn:Hm; [discriminate|].
    assert (match_token (String c pre +:+ x) = None) as Hm'.
    { destruct Hx as [-> | [y ->]].
      - now rewrite append_nil_r.
      - now rewrite match_token_app_dollar. }
    rewrite append_cons in *. rewrite re_sub_token_cons, Hm', (IH Hfree).
    now destruct (re_sub_token repl x 0).
Qed.

Lemma token_free_iff (t : string) : token_free t = true <-> ~ has_token t.
Proof.
  split.
  - intros Hfree (pre & ds & rest & Hne & Hall & ->).
    induction pre as [|c pre IH].
    + rewrite append_nil_l in Hfree.
      pose proof (match_token_token ds rest Hne Hall) as Hm.
      unfold token in *. rewrite !append_assoc in *.
      change ("$(" +:+ ds +:+ ")" +:+ rest)
        with (String "$" (String "(" (ds +:+ ")" +:+ rest))) in *.
      cbn [token_free] in Hfree. now rewrite Hm in Hfree.
    + rewrite append_cons in Hfree. cbn [token_free] in Hfree.
      destruct (match_token _); [discriminate | auto].
  - induction t as [|c t IH]; intros Hno; [reflexivity|].
    cbn [token_free]. destruct (match_token (String c t)) as [ds|] eqn:Hm.
    + exfalso. destruct (match_token_Some _ _ Hm) as (rest & Heq & Hne & Hall).
      apply Hno. exists "", ds, rest. now rewrite append_nil_l.
    + apply IH. intros (pre & ds & rest & Hne & Hall & ->).
      apply Hno. exists (String c pre), ds, rest. now rewrite append_cons.
Qed.

Lemma group_replacer_capture (m : Match) (ds : string) :
  exists v, group_replacer m ds = Ok v /\
            default "" v = capture m (int_of_digits ds).
Proof.
  unfold group_replacer, group, capture.
  destruct (int_of_digits ds =? 0)%N; [eexists; split; reflexivity|].
  destruct (int_of_digits ds <=? N.of_nat (length (m_groups m)))%N eqn:Hle.
  - destruct (nth_error _ _) as [[[a b]|]|]; eexists; split; reflexivity.
  - apply N.leb_gt in Hle.
    assert (nth_error (m_groups m) (N.to_nat (int_of_digits ds) - 1) = None) as ->.
    { apply nth_error_None. lia. }
    eexists; split; reflexivity.
Qed.

Lemma regex_sub_total (m : Match) (t : string) : exists s, regex_sub m t = Ok s.
Proof.
  unfold regex_sub. generalize 0 as skip.
  induction t as [|c t IH]; intros skip; [now exists ""|].
  cbn [re_sub_token]. destruct skip as [|k]; [|apply IH].
  destruct (match_token (String c t)) as [ds|].
  - destruct (group_replacer_capture m ds) as (v & -> & _).
    destruct (IH (String.length ds + 2)) as [out ->]. now eexists.
  - destruct (IH 0) as [out ->]. now eexists.
Qed.

Lemma regex_sub_first_token (m : Match) (pre ds rest out : string) :
  ~ has_token pre -> ds <> "" -> all_digits ds = true ->
  regex_sub m rest = Ok out ->
  regex_sub m (pre +:+ token ds +:+ rest) =
  Ok (pre +:+ capture m (int_of_digits ds) +:+ out).
Proof.
  intros Hfree Hne Hall Hrest. unfold regex_sub in *.
  rewrite re_sub_token_literal.
  - rewrite (re_sub_token_head _ ds rest Hne Hall), Hrest.
    destruct (group_replacer_capture m ds) as (v & -> & <-). reflexivity.
  - now apply token_free_iff.
  - right. unfold token. rewrite !append_assoc. eexists. reflexivity.
Qed.

Lemma regex_sub_token_free (m : Match) (t : string) :
  ~ has_token t -> regex_sub m t = Ok t.
Proof.
  intros Hfree. unfold regex_sub.
  rewrite <- (append_nil_r t) at 1. rewrite re_sub_token_literal.
  - simpl. now rewrite append_nil_r.
  - now apply token_free_iff.
  - now left.
Qed.

Lemma first_token (t : string) :
  token_free t = false ->
  exists pre ds rest,
    t = pre +:+ token ds +:+ rest /\ token_free pre = true /\
    ds <> "" /\ all_digits ds = true.
Proof.
  induction t as [|c t IH]; [discriminate|].
  cbn [token_free]. destruct (match_token (String c t)) as [ds|] eqn:Hm.
  - intros _. destruct (match_token_Some _ _ Hm) as (rest & Heq & Hne & Hall).
    exists "", ds, rest. now rewrite append_nil_l.
  - intros Hfree. destruct (IH Hfree) as (pre & ds & rest & -> & Hpre & Hne & Hall).
    exists (String c pre), ds, rest. repeat split; auto.
    cbn [token_free]. rewrite <- append_cons in Hm.
    unfold token in Hm. rewrite !append_assoc in Hm.
    change ("$(" +:+ ds +:+ ")" +:+ rest)
      with (String "$" ("(" +:+ ds +:+ ")" +:+ rest)) in Hm.
    rewrite match_token_app_dollar in Hm by discriminate. now rewrite Hm.
Qed.

(** C1. For every match and every template, the destination builder returns
    a string and raises nothing; the first token [$(k)] of a template is
    replaced by capture group [k] of the match ([capture m k]: group 0 is the
    whole match), the text before it is kept and the rest of the template is
    treated the same way; a group that is out of range or did not take part
    gives the empty string.  With the groups 0: abc, 1: a, 2: bc the template
    X$(1)-$(2)Y gives Xa-bcY and $(9) gives the empty string. *)
Theorem regex_sub_capture_groups (m : Match) :
  (forall t, exists s, regex_sub m t = Ok s) /\
  (forall pre ds rest out,
      ~ has_token pre -> ds <> "" -> all_digits ds = true ->
      regex_sub m rest = Ok out ->
      regex_sub m (pre +:+ token ds +:+ rest) =
      Ok (pre +:+ capture m (int_of_digits ds) +:+ out)) /\
  capture m 0 = Str.slice (m_string m) (m_start m) (m_end m) /\
  (forall k a b, (0 < k)%N ->
      nth_error (m_groups m) (N.to_nat k - 1) = Some (Some (a, b)) ->
      capture m k = Str.slice (m_string m) a b) /\
  (forall k, (0 < k)%N ->
      nth_error (m_groups m) (N.to_nat k - 1) = Some None -> capture m k = "") /\
  (forall k, (N.of_nat (length (m_groups m)) < k)%N ->
      group m k = Raise IndexError /\ capture m k = "") /\
  regex_sub abc_match "X$(1)-$(2)Y" = Ok "Xa-bcY" /\
  regex_sub abc_match "$(9)" = Ok "".
Proof.
  split; [apply regex_sub_total|].
  split; [apply regex_sub_first_token|].
  split; [reflexivity|].
  split; [|split; [|split; [|split; reflexivity]]].
  - intros k a b Hk Hnth. unfold capture.
    destruct (N.eqb_spec k 0); [lia|]. now rewrite Hnth.
  - intros k Hk Hnth. unfold capture.
    destruct (N.eqb_spec k 0); [lia|]. now rewrite Hnth.
  - intros k Hk. unfold group, capture.
    destruct (N.eqb_spec k 0); [lia|].
    destruct (N.leb_spec k (N.of_nat (length (m_groups m)))); [lia|].
    split; [reflexivity|].
    assert (nth_error (m_groups m) (N.to_nat k - 1) = None) as ->; [|reflexivity].
    apply nth_error_None. lia.
Qed.

Lemma regex_sub_capture_groups_witness :
  regex_sub abc_match ("to/" +:+ token "2" +:+ "-" +:+ token "7")
  = Ok ("to/" +:+ capture abc_match 2 +:+ "-") /\
  capture abc_match 2 = "bc" /\
  (group abc_match 7 = Raise IndexError /\ capture abc_match 7 = "").
Proof.
  pose proof (regex_sub_capture_groups abc_match)
    as (_ & Htok & _ & Hin & _ & Hout & _).
  split; [|split].
  - apply (Htok "to/" "2" ("-" +:+ token "7") "-").
    + apply token_free_iff. reflexivity.
    + discriminate.
    + reflexivity.
    + reflexivity.
  - apply (Hin 2%N 1 3); [reflexivity | reflexivity].
  - apply (Hout 7%N). reflexivity.
Defined.

(** C8. Template substitution rewrites tokens [$(d)], [d] one or more
    digits, and nothing else: a template without such a token comes back
    unchanged, and in any other template the text before the first token is
    copied as it is, in place, the token gives its group and the rest of the
    template is treated the same way.  The malformed tokens [$()], [$(x)]
    and a bare [$] are copied unchanged. *)
Theorem regex_sub_rewrites_only_tokens (m : Match) (t : string) :
  ((~ has_token t /\ regex_sub m t = Ok t) \/
   (exists pre ds rest out,
       t = pre +:+ token ds +:+ rest /\ ~ has_token pre /\
       ds <> "" /\ all_digits ds = true /\
       regex_sub m rest = Ok out /\
       regex_sub m t = Ok (pre +:+ capture m (int_of_digits ds) +:+ out))) /\
  regex_sub m "$()" = Ok "$()" /\
  regex_sub m "$(x)" = Ok "$(x)" /\
  regex_sub m "$" = Ok "$" /\
  regex_sub m "a$(b)$1$(2x)$$(-1)c" = Ok "a$(b)$1$(2x)$$(-1)c" /\
  regex_sub m "a$(b)$1$(0)c" = Ok ("a$(b)$1" +:+ capture m 0 +:+ "c").
Proof.
  split.
  - destruct (token_free t) eqn:Hfree.
    + left. apply token_free_iff in Hfree. split; [assumption|].
      now apply regex_sub_token_free.
    + right. destruct (first_token t Hfree) as (pre & ds & rest & -> & Hpre & Hne & Hall).
      apply token_free_iff in Hpre.
      destruct (regex_sub_total m rest) as [out Hout].
      exists pre, ds, rest, out. repeat split; auto.
      now apply regex_sub_first_token.
  - repeat split; try (apply regex_sub_token_free, token_free_iff; reflexivity).
Qed.

(** ** Path normalizer *)

Lemma string_ind2 (P : string -> Prop) :
  P "" -> (forall c, P (String c "")) ->
  (forall c d r, P r -> P (String d r) -> P (String c (String d r))) ->
  forall s, P s.
Proof.
  intros H0 H1 H2 s.
  enough (P s /\ forall c, P (String c s)) by tauto.
  induction s as [|d s [IHs IHc]]; split; auto.
Qed.

Lemma slash1_cons (c : ascii) (r : string) :
  slash1 (String c r) = String (if Ascii.eqb "\" c then "/" else c) (slash1 r).
Proof.
  unfold slash1, Str.replace. cbn [Str.replace_from].
  rewrite prefix_cons. rewrite prefix_nil, andb_true_r.
  now destruct (Ascii.eqb "\" c).
Qed.

Lemma slash2_one (c : ascii) : slash2 (String c "") = String c "".
Proof.
  unfold slash2, Str.replace. cbn [Str.replace_from].
  rewrite prefix_cons. change (String.prefix "/" "") with false. now rewrite andb_false_r.
Qed.

Lemma slash2_cons (c d : ascii) (r : string) :
  slash2 (String c (String d r)) =
  if Ascii.eqb "/" c && Ascii.eqb "/" d then String "/" (slash2 r)
  else String c (slash2 (String d r)).
Proof.
  unfold slash2, Str.replace. cbn [Str.replace_from].
  rewrite !prefix_cons. rewrite prefix_nil, andb_true_r.
  now destruct (Ascii.eqb "/" c && Ascii.eqb "/" d).
Qed.

Lemma hd_slash_slash2 (s : string) : hd_slash (slash2 s) = hd_slash s.
Proof.
  destruct s as [|c [|d r]]; [reflexivity | now rewrite slash2_one |].
  rewrite slash2_cons.
  destruct (Ascii.eqb "/" c) eqn:Hc; [destruct (Ascii.eqb "/" d)|]; simpl;
    now rewrite ?Hc.
Qed.

Lemma slash2_no_double (s : string) :
  no_triple_slash s = true -> no_double_slash (slash2 s) = true.
Proof.
  induction s as [|c|c d r IHr IHd] using string_ind2.
  - reflexivity.
  - intros _. rewrite slash2_one. simpl. now rewrite andb_false_r.
  - intros H. cbn [no_triple_slash] in H, IHd. cbn [hd_slash tail] in H.
    apply andb_prop in H as [Hc H]. pose proof H as Hd.
    apply andb_prop in Hd as [_ Hr].
    rewrite slash2_cons.
    destruct (Ascii.eqb "/" c) eqn:Ec; destruct (Ascii.eqb "/" d) eqn:Ed;
      cbn [andb no_double_slash]; rewrite ?Ec, ?hd_slash_slash2; cbn [hd_slash];
      rewrite ?Ed; simpl.
    + simpl in Hc. apply negb_true_iff in Hc. rewrite Hc. simpl. auto.
    + auto.
    + auto.
    + auto.
Qed.

Lemma slash2_fixed (s : string) : no_double_slash s = true -> slash2 s = s.
Proof.
  induction s as [|c|c d r IHr IHd] using string_ind2.
  - reflexivity.
  - intros _. apply slash2_one.
  - intros H. cbn [no_double_slash hd_slash] in H, IHd.
    apply andb_prop in H as [Hc H].
    rewrite slash2_cons. apply negb_true_iff in Hc. rewrite Hc.
    now rewrite (IHd H).
Qed.

Lemma slash1_fixed (s : string) : no_backslash s = true -> slash1 s = s.
Proof.
  induction s as [|c r IH]; [reflexivity|]. cbn [no_backslash]. intros H.
  apply andb_prop in H as [Hc H]. apply negb_true_iff in Hc.
  now rewrite slash1_cons, Hc, IH.
Qed.

Lemma slash1_no_backslash (s : string) : no_backslash (slash1 s) = true.
Proof.
  induction s as [|c r IH]; [reflexivity|]. rewrite slash1_cons.
  cbn [no_backslash]. rewrite IH, andb_true_r.
  destruct (Ascii.eqb "\" c) eqn:Hc; [reflexivity|]. now rewrite Hc.
Qed.

Lemma slash2_no_backslash (s : string) :
  no_backslash s = true -> no_backslash (slash2 s) = true.
Proof.
  induction s as [|c|c d r IHr IHd] using string_ind2.
  - reflexivity.
  - now rewrite slash2_one.
  - intros H. cbn [no_backslash] in H, IHd.
    apply andb_prop in H as [Hc H]. pose proof H as Hr.
    apply andb_prop in Hr as [_ Hr].
    rewrite slash2_cons. destruct (Ascii.eqb "/" c && Ascii.eqb "/" d);
      cbn [no_backslash]; [now rewrite (IHr Hr) | now rewrite Hc, (IHd H)].
Qed.

Lemma slash1_no_triple (s : string) :
  no_triple_slash (slash1 s) = no_triple_sep s.
Proof.
  assert (Hsep : forall c, Ascii.eqb "/" (if Ascii.eqb "\" c then "/" else c) = is_sep c).
  { intros c. unfold is_sep. destruct (Ascii.eqb "\" c); [|now rewrite orb_false_r].
    now rewrite orb_true_r. }
  assert (Hhd : forall r, hd_slash (slash1 r) = hd_sep r).
  { intros [|c r]; [reflexivity|]. rewrite slash1_cons. apply Hsep. }
  assert (Htl : forall r, tail (slash1 r) = slash1 (tail r)).
  { intros [|c r]; [reflexivity|]. now rewrite slash1_cons. }
  induction s as [|c r IH]; [reflexivity|].
  rewrite slash1_cons. cbn [no_triple_slash no_triple_sep].
  now rewrite Hsep, Hhd, Htl, Hhd, IH.
Qed.

Lemma fix_path_unfold (p : string) : fix_path p = slash2 (slash1 p).
Proof. reflexivity. Qed.

(** C4, as the code has it.  [fix_path] is a total function whose result has
    no backslash; on a path with no three separators in a row ([/] or [\])
    the result has no doubled slash and normalizing it again changes
    nothing. *)
Theorem fix_path_idempotent_no_triple (p : string) :
  no_backslash (fix_path p) = true /\
  (no_triple_sep p = true ->
   no_double_slash (fix_path p) = true /\
   fix_path (fix_path p) = fix_path p).
Proof.
  rewrite (fix_path_unfold (fix_path p)), (fix_path_unfold p).
  assert (Hb : no_backslash (slash2 (slash1 p)) = true).
  { apply slash2_no_backslash, slash1_no_backslash. }
  split; [exact Hb|]. intros Hp.
  assert (Hd : no_double_slash (slash2 (slash1 p)) = true).
  { apply slash2_no_double. now rewrite slash1_no_triple. }
  split; [exact Hd|].
  rewrite (slash1_fixed _ Hb). now apply slash2_fixed.
Qed.

Lemma fix_path_idempotent_no_triple_witness :
  no_triple_sep "C:\\Users//me\docs" = true /\
  fix_path "C:\\Users//me\docs" = "C:/Users/me/docs" /\
  fix_path (fix_path "C:\\Users//me\docs") = fix_path "C:\\Users//me\docs".
Proof.
  split; [reflexivity|]. split; [reflexivity|].
  apply (fix_path_idempotent_no_triple "C:\\Users//me\docs"). reflexivity.
Defined.

(** C4, as stated, fails: three slashes in a row lose one slash at each
    normalization. *)
Lemma fix_path_not_idempotent :
  fix_path "a///b" = "a//b" /\ fix_path (fix_path "a///b") = "a/b" /\
  fix_path (fix_path "a///b") <> fix_path "a///b".
Proof. repeat split. discriminate. Qed.

(** ** Substrings *)

Lemma prefix_append (sub post : string) : String.prefix sub (sub +:+ post) = true.
Proof.
  induction sub as [|c sub IH]; [apply prefix_nil|].
  rewrite append_cons, prefix_cons, IH. now rewrite Ascii.eqb_refl.
Qed.

Lemma prefix_inv (sub s : string) :
  String.prefix sub s = true -> exists post, s = sub +:+ post.
Proof.
  revert s; induction sub as [|c sub IH]; intros s H.
  - now exists s.
  - destruct s as [|d s]; [discriminate|].
    rewrite prefix_cons in H. apply andb_prop in H as [Hc H].
    apply Ascii.eqb_eq in Hc. subst d. destruct (IH _ H) as [post ->].
    now exists post.
Qed.

Lemma contains_cons (sub : string) (c : ascii) (r : string) :
  Str.contains sub (String c r) = String.prefix sub (String c r) || Str.contains sub r.
Proof. reflexivity. Qed.

Lemma contains_iff (sub s : string) :
  Str.contains sub s = true <-> exists pre post, s = pre +:+ sub +:+ post.
Proof.
  split.
  - induction s as [|c r IH].
    + cbn [Str.contains]. rewrite orb_false_r. intros H.
      destruct (prefix_inv _ _ H) as [post ->]. now exists "", post.
    + rewrite contains_cons. intros H. apply orb_prop in H as [H|H].
      * destruct (prefix_inv _ _ H) as [post ->]. now exists "", post.
      * destruct (IH H) as (pre & post & ->). now exists (String c pre), post.
  - intros (pre & post & ->). induction pre as [|c pre IH].
    + rewrite append_nil_l. destruct (sub +:+ post) eqn:E.
      * cbn [Str.contains]. rewrite <- E. now rewrite prefix_append.
      * rewrite contains_cons, <- E. now rewrite prefix_append.
    + rewrite append_cons, contains_cons, IH. apply orb_true_r.
Qed.

Lemma contains_false_prefix (sub s : string) :
  Str.contains sub s = false -> String.prefix sub s = false.
Proof.
  destruct s as [|c r].
  - cbn [Str.contains]. now rewrite orb_false_r.
  - rewrite contains_cons. now intros [H _]%orb_false_elim.
Qed.

(** ** Output formatter: the truncation *)

(** C5, run on the code.  A line of 103 columns on a terminal of 80 columns,
    with the match in the part that is kept, is cut to 59 visible characters
    and the ellipsis, 62 columns, not to 77 and the ellipsis; a line built
    without a placeholder raises [ValueError] in place of being cut; on a
    terminal of 10 columns the cut is taken from the end and the line
    printed takes 24 columns. *)
Theorem print_output_truncation_defect :
  let a := args0 CMD_SEARCH in
  let w80 := world_of "." small_tree ["."] 0 80 in
  let w10 := world_of "." small_tree ["."] 0 10 in
  visible_length (format (Hole "./" (Str.repeat "x" 100)) "a") = 103 /\
  (exists line,
      print_output w80 a (Hole "./" (Str.repeat "x" 100)) "a" MATCH_COLOR RESET_COLOR
      = ([EvPrint line], Ok tt) /\
      visible_length line = 62 /\ visible_length line <> 80) /\
  print_line w80 a (Plain (Str.repeat "x" 100)) = ([], Raise ValueError) /\
  (exists line,
      print_output w10 a (Hole "./" (Str.repeat "x" 20)) "a" MATCH_COLOR RESET_COLOR
      = ([EvPrint line], Ok tt) /\
      visible_length line = 24 /\ 10 < visible_length line).
Proof.
  cbv zeta. split; [reflexivity|]. split; [|split; [reflexivity|]].
  - eexists. split; [vm_compute; reflexivity|]. split; [reflexivity|].
    vm_compute. discriminate.
  - eexists. split; [vm_compute; reflexivity|]. split; [reflexivity|].
    vm_compute. lia.
Qed.

(** ** Copy: where a file lands *)

Lemma basename_join (root name : string) :
  Str.contains "/" name = false -> basename (root +:+ "/" +:+ name) = name.
Proof.
  intros Hname. induction root as [|c root IH].
  - rewrite append_nil_l. change ("/" +:+ name) with (String "/" name).
    cbn [basename]. now rewrite Hname.
  - rewrite append_cons. cbn [basename].
    assert (Str.contains "/" (root +:+ "/" +:+ name) = true) as ->.
    { apply contains_iff. now exists root, name. }
    exact IH.
Qed.

Lemma os_path_join_plain (a b : string) :
  a <> "" -> Str.endswith a "/" = false -> Str.contains "/" b = false ->
  os_path_join a b = a +:+ "/" +:+ b.
Proof.
  intros Ha Hend Hb. unfold os_path_join, Str.startswith.
  rewrite (contains_false_prefix _ _ Hb), Hend.
  destruct (String.eqb_spec a ""); [contradiction | reflexivity].
Qed.

(** C6. Copying a matched file to a destination that names an existing
    directory and has no trailing separator (and no token) writes the copy
    at destination/name: the handler hands the destination as it is to
    [shutil.copy2], which puts a file copied to a directory under its own
    name in it.  So report.csv copied to out lands at out/report.csv. *)
Theorem copy_file_into_directory (w : World) (a : Args)
        (root name destination : string) (m : Match) :
  name_hidden a name = false ->
  re_search w (pattern_text a) name = Some m ->
  Str.contains "/" name = false ->
  destination <> "" ->
  Str.endswith destination "/" = false ->
  ~ has_token destination ->
  os_path_isdir w destination = true ->
  (exists log r,
      Copy.move_item w a root name destination false
      = (EvCopy2 (root +:+ "/" +:+ name) destination :: log, r)) /\
  copy2_target w (root +:+ "/" +:+ name) destination = destination +:+ "/" +:+ name.
Proof.
  intros Hhid Hm Hname Hne Hend Htok Hdir. split.
  - unfold Copy.move_item, destination_of. rewrite Hhid, Hm, Hend.
    cbn [negb andb]. rewrite (regex_sub_token_free m _ Htok).
    destruct (shutil_copy2 w (root +:+ "/" +:+ name) destination) as [[]|e] eqn:Hc.
    + unfold lift, sys, try_except, mbind, M_bind, mbind', mret. rewrite Hc.
      cbn. destruct (print_line w a _) as [l [[]|e']]; cbn; eauto.
    + unfold lift, sys, try_except, mbind, M_bind, mbind', mret. rewrite Hc.
      cbn. destruct (is_shutil_error e); cbn.
      * destruct (print_error a _) as [l [[]|e']]; cbn; eauto.
      * eauto.
  - unfold copy2_target. rewrite Hdir, basename_join by assumption.
    now apply os_path_join_plain.
Qed.

Lemma copy_file_into_directory_witness :
  let w := world_of "." (Dir "." [Dir "out" [] []] ["report.csv"]) ["."; "out"] 0 80 in
  let a := mkArgs CMD_COPY ["out"] (Some "report") "." false false false None in
  fst (main w a) = [EvWalk "."; EvCopy2 "./report.csv" "out";
                    EvPrint (RESET_COLOR +:+ "./report.csv => out" +:+ RESET_COLOR);
                    EvSummary "Summary" [("Directories copied: ", "0");
                                         ("Files copied: ", "1");
                                         ("Elapsed Time", "00:00:00.0000")]] /\
  copy2_target w "./report.csv" "out" = "out/report.csv".
Proof.
  split; [reflexivity|].
  apply (copy_file_into_directory
           (world_of "." (Dir "." [Dir "out" [] []] ["report.csv"]) ["."; "out"] 0 80)
           (mkArgs CMD_COPY ["out"] (Some "report") "." false false false None)
           "." "report.csv" "out" (mkMatch "report.csv" 0 6 []));
    try reflexivity.
  - discriminate.
  - apply token_free_iff. reflexivity.
Defined.

(** ** The traversal loop *)

Lemma for_walk_cons {S : Type} (a : Args)
      (body : string -> list string -> list string -> S -> M S)
      (e : WalkEntry) (rest : list WalkEntry) (s : S) :
  for_walk a body (e :: rest) s =
  mbind' (emit (EvWalk (we_root e))) (fun _ =>
    if root_hidden a (fix_path (we_root e)) then for_walk a body rest s
    else mbind' (body (fix_path (we_root e)) (we_dirs e) (we_files e) s) (fun s' =>
           if negb (recursive a) then mret s' else for_walk a body rest s')).
Proof. reflexivity. Qed.

Lemma for_walk_all_cons {S : Type} (a : Args)
      (body : string -> list string -> list string -> S -> M S)
      (e : WalkEntry) (rest : list WalkEntry) (s : S) :
  for_walk_all a body (e :: rest) s =
  mbind' (emit (EvWalk (we_root e))) (fun _ =>
    if root_hidden a (fix_path (we_root e)) then for_walk_all a body rest s
    else mbind' (body (fix_path (we_root e)) (we_dirs e) (we_files e) s) (fun s' =>
           for_walk_all a body rest s')).
Proof. reflexivity. Qed.

(** Without [-r], the loop stops after the first entry it does not skip. *)
Lemma for_walk_break {S : Type} (a : Args)
      (body : string -> list string -> list string -> S -> M S)
      (e : WalkEntry) (rest : list WalkEntry) (s : S) :
  recursive a = false ->
  root_hidden a (fix_path (we_root e)) = false ->
  for_walk a body (e :: rest) s = for_walk a body [e] s.
Proof.
  intros Hrec Hhid. rewrite !for_walk_cons, Hhid, Hrec. reflexivity.
Qed.

(** C3, as the code has it.  Without [-r], when the hidden filter does not
    skip the root, the loop of every command takes one entry from the walk,
    the root directory, and the run does not depend on what the walk would
    yield next; [size] first runs a bottom-up pass over the whole tree
    whatever the flag, and its reporting pass obeys the same rule. *)
Theorem nonrecursive_one_level (w : World) (a : Args)
        (e : WalkEntry) (rest bottom_up : list WalkEntry) :
  recursive a = false ->
  root_hidden a (fix_path (we_root e)) = false ->
  run_command w a (e :: rest) bottom_up =
  run_command w a [e] (match command a with CMD_SIZE => bottom_up | _ => [] end).
Proof.
  intros Hrec Hhid. unfold run_command.
  destruct (command a).
  - unfold Search.handler. destruct (options a) as [|o [|? ?]]; try reflexivity.
    destruct (negb (re_valid w o)); [reflexivity|].
    now rewrite for_walk_break.
  - unfold List_.handler. destruct (options a); [|reflexivity].
    now rewrite for_walk_break.
  - unfold Size.handler. destruct (options a); [|reflexivity].
    unfold mbind, M_bind, mbind'.
    destruct (for_walk_all a (Size.body1 w a) bottom_up ∅) as [l [sizes|x]];
      [|reflexivity].
    now rewrite for_walk_break.
  - unfold Rename.handler. destruct (options a) as [|o [|? ?]]; try reflexivity.
    destruct (negb (truthy (pattern a))); [reflexivity|].
    now rewrite for_walk_break.
  - unfold Delete.handler. destruct (options a); [|reflexivity].
    destruct (negb (truthy (pattern a))); [reflexivity|].
    now rewrite for_walk_break.
  - unfold Copy.handler. destruct (options a) as [|o [|? ?]]; try reflexivity.
    destruct (negb (truthy (pattern a))); [reflexivity|].
    now rewrite for_walk_break.
  - unfold Move.handler. destruct (options a) as [|o [|? ?]]; try reflexivity.
    destruct (negb (truthy (pattern a))); [reflexivity|].
    now rewrite for_walk_break.
Qed.

Lemma nonrecursive_one_level_witness :
  let w := world_of "." small_tree ["."] 7 80 in
  let a := args0 CMD_LIST in
  run_command w a (walk_top_down "." small_tree) (walk_bottom_up "." small_tree) =
  run_command w a [mkEntry "." ["sub"] ["top.txt"]] [] /\
  fst (run_command w a (walk_top_down "." small_tree) (walk_bottom_up "." small_tree)) =
  [EvWalk "."; EvPrint (RESET_COLOR +:+ "./sub/" +:+ RESET_COLOR);
   EvPrint (RESET_COLOR +:+ "./top.txt" +:+ RESET_COLOR)].
Proof.
  split; [|reflexivity].
  apply (nonrecursive_one_level (world_of "." small_tree ["."] 7 80) (args0 CMD_LIST)
           (mkEntry "." ["sub"] ["top.txt"])
           [mkEntry "./sub" [] ["inner.txt"]]
           (walk_bottom_up "." small_tree)); reflexivity.
Defined.

(** C3, as stated, fails for [size]: without [-r] the first pass still walks
    the subdirectory, reads the size of the file in it and, in verbose mode,
    reports both. *)
Lemma size_nonrecursive_walks_subdirectory :
  let w := world_of "." small_tree ["."] 7 80 in
  let a := mkArgs CMD_SIZE [] None "." false false true None in
  recursive a = false /\
  fst (main w a) =
  [EvWalk "./sub"; EvGetsize "./sub/inner.txt";
   EvPrint (INFO_COLOR +:+ DQ +:+ "./sub/inner.txt" +:+ DQ +:+ " => 7.00 B" +:+ RESET_COLOR);
   EvPrint (INFO_COLOR +:+ DQ +:+ "./sub" +:+ DQ +:+ " => 7.00 B" +:+ RESET_COLOR);
   EvWalk "."; EvGetsize "./top.txt";
   EvPrint (INFO_COLOR +:+ DQ +:+ "./top.txt" +:+ DQ +:+ " => 14.00 B" +:+ RESET_COLOR);
   EvPrint (INFO_COLOR +:+ DQ +:+ "." +:+ DQ +:+ " => 14.00 B" +:+ RESET_COLOR);
   EvWalk ".";
   EvPrint (RESET_COLOR +:+ "./sub/ => 7.00 B" +:+ RESET_COLOR);
   EvPrint (RESET_COLOR +:+ "./top.txt => 7.00 B" +:+ RESET_COLOR);
   EvSummary "Summary" [("Elapsed Time", "00:00:00.0000")]].
Proof. split; reflexivity. Qed.

(** ** The summary tables *)

Lemma print_tables_ok (tables : list Table) :
  exists log, print_tables tables = (log, Ok tt).
Proof.
  induction tables as [|t rest [log IH]]; [now exists []|].
  cbn [print_tables]. unfold mbind, M_bind, mbind', print_summary, emit.
  rewrite IH. eauto.
Qed.

Lemma mbind_Ok {A B : Type} (m : M A) (k : A -> M B) (log : list Event) (b : B) :
  mbind' m k = (log, Ok b) ->
  exists l1 x l2, m = (l1, Ok x) /\ k x = (l2, Ok b) /\ log = l1 ++ l2.
Proof.
  destruct m as [l1 [x|e]]; cbn; [|discriminate].
  destruct (k x) as [l2 r] eqn:Hk. intros [= <- ->]. now exists l1, x, l2.
Qed.

Ltac handler_done H :=
  unfold mbind, M_bind in H;
  repeat lazymatch type of H with
         | mbind' _ _ = _ => apply mbind_Ok in H as (? & ? & ? & _ & H & _)
         | exit1 _ = _ => discriminate H
         | match ?x with _ => _ end = _ => destruct x
         end;
  inversion H; subst; intros Hnil; inversion Hnil.

Lemma run_command_tables (w : World) (a : Args) (td bu : list WalkEntry)
      (log : list Event) (tables : list Table) :
  run_command w a td bu = (log, Ok tables) -> tables <> [].
Proof.
  unfold run_command. destruct (command a); intros H.
  - unfold Search.handler in H. handler_done H.
  - unfold List_.handler in H. handler_done H.
  - unfold Size.handler in H. handler_done H.
  - unfold Rename.handler in H. handler_done H.
  - unfold Delete.handler in H. handler_done H.
  - unfold Copy.handler in H. handler_done H.
  - unfold Move.handler in H. handler_done H.
Qed.

(** C10. When the branch of a command ends normally, the list of tables is
    not empty, so putting the elapsed time into the first table does not
    raise and the tables are printed. *)
Theorem tables_nonempty (w : World) (a : Args) (td bu : list WalkEntry)
        (log : list Event) (tables : list Table) :
  run_command w a td bu = (log, Ok tables) ->
  tables <> [] /\
  exists tables' log',
    inject_elapsed tables (elapsed_str w) = Ok tables' /\
    length tables' = length tables /\
    finish w tables = (log', Ok tables').
Proof.
  intros H. pose proof (run_command_tables _ _ _ _ _ _ H) as Hne.
  split; [assumption|].
  destruct tables as [|[title results] rest]; [contradiction|].
  destruct (print_tables_ok
              ((title, dict_set results "Elapsed Time" (VStr (elapsed_str w))) :: rest))
    as [l' Hl].
  exists ((title, dict_set results "Elapsed Time" (VStr (elapsed_str w))) :: rest),
         ([] ++ l' ++ []).
  split; [reflexivity|]. split; [reflexivity|].
  unfold finish, lift, mbind, M_bind, mbind', inject_elapsed. now rewrite Hl.
Qed.

Lemma tables_nonempty_witness :
  let w := world_of "." small_tree ["."] 7 80 in
  let a := args0 CMD_LIST in
  exists log tables,
    run_command w a (walk_top_down "." small_tree) (walk_bottom_up "." small_tree)
    = (log, Ok tables) /\
    tables <> [] /\
    exists tables' log',
      inject_elapsed tables (elapsed_str w) = Ok tables' /\
      length tables' = length tables /\
      finish w tables = (log', Ok tables').
Proof.
  eexists _, _. split; [reflexivity|].
  apply (tables_nonempty (world_of "." small_tree ["."] 7 80) (args0 CMD_LIST)
           (walk_top_down "." small_tree) (walk_bottom_up "." small_tree) _ _ eq_refl).
Defined.

(** ** Copy and move: a failing entry *)

(** An exception of [shutil.copy2] or [shutil.move] that is not a
    [shutil.Error] leaves [move_item]. *)
Lemma copy_move_item_raises (w : World) (a : Args)
      (root name destination to_path : string) (m : Match) (e : exn) :
  name_hidden a name = false ->
  re_search w (pattern_text a) name = Some m ->
  regex_sub m (destination_of w name destination false) = Ok to_path ->
  shutil_copy2 w (root +:+ "/" +:+ name) to_path = Raise e ->
  is_shutil_error e = false ->
  Copy.move_item w a root name destination false
  = ([EvCopy2 (root +:+ "/" +:+ name) to_path], Raise e).
Proof.
  intros Hhid Hm Hsub Hop He. unfold Copy.move_item.
  rewrite Hhid, Hm, Hsub.
  unfold lift, sys, try_except, mbind, M_bind, mbind'. now rewrite Hop, He.
Qed.

Lemma move_move_item_raises (w : World) (a : Args)
      (root name destination to_path : string) (is_dir : bool) (m : Match) (e : exn) :
  name_hidden a name = false ->
  re_search w (pattern_text a) name = Some m ->
  regex_sub m (destination_of w name destination is_dir) = Ok to_path ->
  shutil_move w (root +:+ "/" +:+ name) to_path = Raise e ->
  is_shutil_error e = false ->
  Move.move_item w a root name destination is_dir
  = ([EvMove (root +:+ "/" +:+ name) to_path], Raise e).
Proof.
  intros Hhid Hm Hsub Hop He. unfold Move.move_item.
  rewrite Hhid, Hm, Hsub.
  unfold lift, sys, try_except, mbind, M_bind, mbind'. now rewrite Hop, He.
Qed.

(** C2, run on the code.  Two files match; copying (or moving) the first
    fails.  When the failure is an [OSError] that is not a [shutil.Error]
    the exception leaves the handler: the run ends there, the second file is
    not touched and no summary is printed.  The handlers recover only from
    [shutil.Error]; [rename], in the same situation, recovers from the
    [OSError] too. *)
Theorem copy_move_oserror_aborts :
  let w0 := world_of "." two_files ["."; "out"] 7 80 in
  let a := fun c o => mkArgs c [o] (Some "txt") "." false false true None in
  main (with_failing w0 "./a.txt" OSError) (a CMD_COPY "out/")
  = ([EvWalk "."; EvCopy2 "./a.txt" "out/a.txt"], Raise OSError) /\
  main (with_failing w0 "./a.txt" OSError) (a CMD_MOVE "out/")
  = ([EvWalk "."; EvMove "./a.txt" "out/a.txt"], Raise OSError) /\
  main (with_failing w0 "./a.txt" ShutilError) (a CMD_COPY "out/")
  = ([EvWalk "."; EvCopy2 "./a.txt" "out/a.txt";
      EvPrint (ERROR_COLOR +:+ "ERROR: Could not copy file ./a.txt to out/a.txt: error"
                 +:+ RESET_COLOR);
      EvCopy2 "./b.txt" "out/b.txt";
      EvPrint (RESET_COLOR +:+ "./b.txt => out/b.txt" +:+ RESET_COLOR);
      EvSummary "Summary" [("Directories copied: ", "0"); ("Files copied: ", "1");
                           ("Elapsed Time", "00:00:00.0000")]],
     Ok [("Summary", [("Directories copied: ", VInt 0); ("Files copied: ", VInt 1);
                      ("Elapsed Time", VStr "00:00:00.0000")])]) /\
  main (with_failing w0 "./a.txt" OSError) (a CMD_RENAME "new-$(0)")
  = ([EvWalk "."; EvRename "./a.txt" "./new-txt";
      EvPrint (ERROR_COLOR +:+ "ERROR: Could not rename directory ./a.txt: error"
                 +:+ RESET_COLOR);
      EvRename "./b.txt" "./new-txt";
      EvPrint (RESET_COLOR +:+ "./b.txt => ./new-txt" +:+ RESET_COLOR);
      EvSummary "Summary" [("Directories renamed: ", "0"); ("Files renamed: ", "1");
                           ("Elapsed Time", "00:00:00.0000")]],
     Ok [("Summary", [("Directories renamed: ", VInt 0); ("Files renamed: ", VInt 1);
                      ("Elapsed Time", VStr "00:00:00.0000")])]).
Proof. repeat split. Qed.

(** ** The hidden-root filter *)

Lemma contains_char_cons (x c : ascii) (r : string) :
  Str.contains (String x "") (String c r) = Ascii.eqb x c || Str.contains (String x "") r.
Proof. now rewrite contains_cons, prefix_cons, prefix_nil, andb_true_r. Qed.

Lemma no_backslash_of_contains (s : string) :
  Str.contains "\" s = false -> no_backslash s = true.
Proof.
  induction s as [|c r IH]; [reflexivity|].
  rewrite contains_char_cons. intros [Hc Hr]%orb_false_elim.
  cbn [no_backslash]. now rewrite Hc, IH.
Qed.

Lemma no_double_slash_of_contains (s : string) :
  Str.contains "/" s = false -> no_double_slash s = true.
Proof.
  induction s as [|c r IH]; [reflexivity|].
  rewrite contains_char_cons. intros [Hc Hr]%orb_false_elim.
  cbn [no_double_slash]. now rewrite Hc, IH.
Qed.

Lemma fix_path_bare_name (d : string) :
  Str.contains "/" d = false -> Str.contains "\" d = false -> fix_path d = d.
Proof.
  intros Hs Hb. rewrite fix_path_unfold.
  rewrite (slash1_fixed d (no_backslash_of_contains d Hb)).
  apply slash2_fixed. now apply no_double_slash_of_contains.
Qed.

Lemma bare_name_no_slash_dot (d : string) :
  Str.contains "/" d = false -> Str.contains "/." d = false.
Proof.
  intros Hs. destruct (Str.contains "/." d) eqn:Hc; [|reflexivity].
  apply contains_iff in Hc as (pre & post & ->).
  enough (Str.contains "/" (pre +:+ "/." +:+ post) = true) by congruence.
  apply contains_iff. exists pre, ("." +:+ post). reflexivity.
Qed.

(** C9, as the code has it.  With the hidden flag off, the filter skips a
    visited directory exactly when its normalized path contains [/.].  A
    starting directory given as a bare name (no separator in it) is
    therefore processed by the loop of every command even when the name
    begins with a dot: its entry is taken and the body of the loop runs
    on it. *)
Theorem hidden_root_filter (a : Args) :
  (forall root, root_hidden a root = true <->
                hidden a = false /\ exists pre post, root = pre +:+ "/." +:+ post) /\
  (forall d dirs files rest,
      Str.contains "/" d = false -> Str.contains "\" d = false ->
      root_hidden a (fix_path d) = false /\
      (forall (S : Type) (body : string -> list string -> list string -> S -> M S) (s : S),
          for_walk a body (mkEntry d dirs files :: rest) s =
          mbind' (emit (EvWalk d)) (fun _ =>
            mbind' (body d dirs files s) (fun s' =>
              if negb (recursive a) then mret s' else for_walk a body rest s')) /\
          for_walk_all a body (mkEntry d dirs files :: rest) s =
          mbind' (emit (EvWalk d)) (fun _ =>
            mbind' (body d dirs files s) (fun s' => for_walk_all a body rest s')))).
Proof.
  split.
  - intros root. unfold root_hidden. rewrite andb_true_iff, negb_true_iff.
    now rewrite contains_iff.
  - intros d dirs files rest Hs Hb.
    assert (Hhid : root_hidden a (fix_path d) = false).
    { unfold root_hidden. rewrite (fix_path_bare_name d Hs Hb).
      rewrite (bare_name_no_slash_dot d Hs). apply andb_false_r. }
    split; [exact Hhid|]. intros S body s.
    rewrite for_walk_cons, for_walk_all_cons. cbn [we_root we_dirs we_files].
    rewrite Hhid, (fix_path_bare_name d Hs Hb). split; reflexivity.
Qed.

Lemma hidden_root_filter_witness :
  let a := mkArgs CMD_LIST [] None ".git" false false false None in
  let w := world_of ".git" (Dir ".git" [] ["config"]) [".git"] 0 80 in
  root_hidden a (fix_path ".git") = false /\
  fst (main w a) =
  [EvWalk ".git"; EvPrint (RESET_COLOR +:+ ".git/config" +:+ RESET_COLOR);
   EvSummary "Summary" [("Directory Count", "0"); ("File Count", "1");
                        ("Elapsed Time", "00:00:00.0000")]].
Proof.
  split; [|reflexivity].
  apply (proj2 (hidden_root_filter
                  (mkArgs CMD_LIST [] None ".git" false false false None))
               ".git" [] ["config"] []); reflexivity.
Defined.

(** When the starting directory is skipped, the [continue] passes over the
    [break] as well: without [-r] the walk still goes down the tree, every
    entry below being skipped in turn. *)
Lemma hidden_root_walk_continues :
  let a := mkArgs CMD_LIST [] None "./.git" false false false None in
  let t := Dir ".git" [Dir "hooks" [] ["pre-commit"]] ["config"] in
  fst (run_command (world_of "./.git" t ["./.git"] 0 80) a
         (walk_top_down "./.git" t) (walk_bottom_up "./.git" t))
  = [EvWalk "./.git"; EvWalk "./.git/hooks"].
Proof. reflexivity. Qed.

(** C9, as stated, fails: the starting directory [./.git] has [/.] in its
    path, so its entry is skipped and the file in it is not listed. *)
Lemma hidden_start_directory_skipped :
  let a := mkArgs CMD_LIST [] None "./.git" false false false None in
  let w := world_of "./.git" (Dir ".git" [] ["config"]) ["./.git"] 0 80 in
  root_hidden a (fix_path "./.git") = true /\
  main w a =
  ([EvWalk "./.git";
    EvSummary "Summary" [("Directory Count", "0"); ("File Count", "0");
                         ("Elapsed Time", "00:00:00.0000")]],
   Ok [("Summary", [("Directory Count", VInt 0); ("File Count", VInt 0);
                    ("Elapsed Time", VStr "00:00:00.0000")])]).
Proof. split; reflexivity. Qed.

(** * Further properties of the code *)

(** ** Computations that end normally *)

Lemma mbind_Raise {A B : Type} (m : M A) (k : A -> M B) (log : list Event) (e : exn) :
  mbind' m k = (log, Raise e) ->
  (exists l, m = (l, Raise e)) \/
  (exists l1 x l2, m = (l1, Ok x) /\ k x = (l2, Raise e)).
Proof.
  destruct m as [l1 [x|e']]; cbn.
  - destruct (k x) as [l2 r] eqn:Hk. intros [= <- ->]. right. now exists l1, x, l2.
  - intros [= <- <-]. left. now exists l1.
Qed.

Lemma no_exit_bind {A B : Type} (m : M A) (k : A -> M B) :
  no_exit m -> (forall x, no_exit (k x)) -> no_exit (mbind' m k).
Proof.
  intros Hm Hk. unfold no_exit in *. destruct (mbind' m k) as [log [b|e]] eqn:Hb;
    [discriminate|]. cbn. intros [= ->].
  apply mbind_Raise in Hb as [[l ->] | (l1 & x & l2 & -> & Hx)].
  - now apply Hm.
  - apply (Hk x). now rewrite Hx.
Qed.

Lemma no_exit_Ok {A : Type} (l : list Event) (x : A) : no_exit (l, Ok x).
Proof. unfold no_exit. cbn. discriminate. Qed.

Lemma no_exit_sys {A : Type} (ev : Event) (r : result A) :
  r <> Raise SystemExit -> no_exit (sys ev r).
Proof. intros H. exact H. Qed.

Lemma print_error_ok (a : Args) (msg : string) :
  exists l, print_error a msg = (l, Ok tt).
Proof.
  unfold print_error. destruct (negb (verbose a)); [now exists []|].
  destruct (output a); eexists; reflexivity.
Qed.

Lemma print_info_ok (a : Args) (msg : string) :
  exists l, print_info a msg = (l, Ok tt).
Proof.
  unfold print_info. destruct (negb (verbose a)); [now exists []|].
  destruct (output a); eexists; reflexivity.
Qed.

Lemma print_output_cases (w : World) (a : Args) (f : FormatString)
      (match_ color wrapColor : string) :
  (exists ev, print_output w a f match_ color wrapColor = ([ev], Ok tt)) \/
  print_output w a f match_ color wrapColor = ([], Raise ValueError).
Proof.
  unfold print_output. destruct (output a); [left; eexists; reflexivity|].
  unfold render_line. destruct (_ <? _)%Z; [|left; eexists; reflexivity].
  destruct f as [text|pre post]; cbn; [now right|].
  destruct (_ <? _)%Z; left; eexists; reflexivity.
Qed.

Lemma print_output_hole (w : World) (a : Args) (pre post match_ color wrapColor : string) :
  exists ev, print_output w a (Hole pre post) match_ color wrapColor = ([ev], Ok tt).
Proof.
  unfold print_output. destruct (output a); [eexists; reflexivity|].
  unfold render_line. destruct (_ <? _)%Z; [|eexists; reflexivity].
  cbn. destruct (_ <? _)%Z; eexists; reflexivity.
Qed.

Lemma no_exit_print_output (w : World) (a : Args) (f : FormatString)
      (match_ color wrapColor : string) :
  no_exit (print_output w a f match_ color wrapColor).
Proof.
  destruct (print_output_cases w a f match_ color wrapColor) as [[ev ->] | ->];
    unfold no_exit; cbn; discriminate.
Qed.

Lemma no_exit_print_error (a : Args) (msg : string) : no_exit (print_error a msg).
Proof. destruct (print_error_ok a msg) as [l ->]. apply no_exit_Ok. Qed.

Lemma no_exit_print_info (a : Args) (msg : string) : no_exit (print_info a msg).
Proof. destruct (print_info_ok a msg) as [l ->]. apply no_exit_Ok. Qed.

(** [try: body except Exception: handler] ends normally when the body does
    not exit and the handler ends normally. *)
Lemma try_except_ok {A : Type} (body : M A) (handler : exn -> M A) :
  no_exit body ->
  (forall e, exists l x, handler e = (l, Ok x)) ->
  exists l x, try_except is_exception body handler = (l, Ok x).
Proof.
  intros Hb Hh. destruct body as [l [x|e]]; cbn.
  - now exists l, x.
  - destruct (is_exception e) eqn:He.
    + destruct (Hh e) as (l' & x & Hx). rewrite Hx. now eexists _, _.
    + destruct e; try discriminate He. exfalso. now apply Hb.
Qed.

Lemma mbind_lift_Ok {A B : Type} (x : A) (k : A -> M B) :
  mbind' (lift (Ok x)) k = k x.
Proof. unfold lift, mbind'. now destruct (k x). Qed.

Lemma for_walk_ok {S : Type} (a : Args)
      (body : string -> list string -> list string -> S -> M S)
      (entries : list WalkEntry) (s : S) :
  (forall root dirs files s0, exists l s', body root dirs files s0 = (l, Ok s')) ->
  exists l s', for_walk a body entries s = (l, Ok s').
Proof.
  intros Hbody. revert s; induction entries as [|e rest IH]; intros s.
  - now exists [], s.
  - rewrite for_walk_cons. unfold emit, mbind'.
    destruct (root_hidden a (fix_path (we_root e))).
    + destruct (IH s) as (l & s' & ->). now eexists _, _.
    + destruct (Hbody (fix_path (we_root e)) (we_dirs e) (we_files e) s) as (l1 & s1 & ->).
      destruct (negb (recursive a)); [now eexists _, _|].
      destruct (IH s1) as (l & s' & ->). now eexists _, _.
Qed.

(** ** Rename *)

Lemma rename_ok (w : World) (a : Args) (root old_name new_name : string) :
  no_system_exit w ->
  exists l b, Rename.rename w a root old_name new_name = (l, Ok b).
Proof.
  intros (Hren & _). unfold Rename.rename.
  destruct (name_hidden a old_name); [now exists [], false|].
  destruct (re_search w (pattern_text a) old_name) as [m|]; [|now exists [], false].
  destruct (regex_sub_total m new_name) as [new ->].
  unfold mbind, M_bind. rewrite mbind_lift_Ok.
  apply try_except_ok.
  - apply no_exit_bind; [apply no_exit_sys, Hren|]. intros _.
    apply no_exit_bind; [apply no_exit_print_output|]. intros _. apply no_exit_Ok.
  - intros e. destruct (print_error_ok a ("Could not rename directory "
                 +:+ (root +:+ "/" +:+ old_name) +:+ ": " +:+ exn_str w e)) as [l Hl].
    unfold mbind'. rewrite Hl. now eexists _, _.
Qed.

Lemma rename_all_ok (w : World) (a : Args) (root new_name : string)
      (names : list string) (count : nat) :
  no_system_exit w ->
  exists l n, Rename.rename_all w a root new_name names count = (l, Ok n) /\
              count <= n <= count + length names.
Proof.
  intros Hw. revert count; induction names as [|name rest IH]; intros count.
  - exists [], count. split; [reflexivity | simpl; lia].
  - cbn [Rename.rename_all]. unfold mbind, M_bind, mbind'.
    destruct (rename_ok w a root name new_name Hw) as (l1 & b & ->).
    destruct (IH (if b then count + 1 else count)) as (l2 & n & -> & Hn).
    exists (l1 ++ l2), n. split; [reflexivity|]. destruct b; simpl; lia.
Qed.

(** X1. In a world whose operations do not exit the process, a [rename] run
    cannot be stopped by an entry: whatever [os.rename] raises, and whatever
    happens while the line is printed, is caught.  Each loop over names
    ends normally with a count raised by at most the number of names, and the
    run either stops at once on a usage error, having printed one message, or
    returns its summary. *)
Theorem rename_run_completes (w : World) (a : Args) (td bu : list WalkEntry) :
  no_system_exit w ->
  command a = CMD_RENAME ->
  (forall root new_name names count,
      exists l n, Rename.rename_all w a root new_name names count = (l, Ok n) /\
                  count <= n <= count + length names) /\
  ((exists msg, run_command w a td bu = ([EvPrint msg], Raise SystemExit)) \/
   (exists log d f,
       run_command w a td bu =
       (log, Ok [("Summary", [("Directories renamed: ", VInt d);
                              ("Files renamed: ", VInt f)])]))).
Proof.
  intros Hw Hc. split; [intros; now apply rename_all_ok|].
  unfold run_command. rewrite Hc. unfold Rename.handler.
  destruct (options a) as [|new_name [|? ?]]; [left; eexists; reflexivity| |left; eexists; reflexivity].
  destruct (negb (truthy (pattern a))); [left; eexists; reflexivity|].
  right. unfold mbind, M_bind.
  destruct (for_walk_ok a (Rename.body w a new_name) td (0, 0)) as (l & [d f] & Hl).
  - intros root dirs files [d0 f0]. unfold Rename.body, mbind, M_bind, mbind'. cbn [fst snd].
    destruct (rename_all_ok w a root new_name dirs d0 Hw) as (l1 & d & -> & _).
    destruct (rename_all_ok w a root new_name files f0 Hw) as (l2 & f & -> & _).
    now eexists _, _.
  - unfold mbind'. rewrite Hl. now eexists _, d, f.
Qed.

Lemma world_of_no_system_exit (top : string) (t : Tree) (dirs : list string)
      (size : nat) (columns : Z) :
  no_system_exit (world_of top t dirs size columns).
Proof. repeat split; intros; discriminate. Qed.

Lemma with_failing_no_system_exit (w : World) (bad : string) (e : exn) :
  no_system_exit w -> e <> SystemExit -> no_system_exit (with_failing w bad e).
Proof.
  intros (H1 & H2 & H3 & H4 & H5 & H6 & H7 & H8) He.
  repeat split; cbn; intros; try destruct (String.eqb _ _); auto; congruence.
Qed.

Lemma rename_run_completes_witness :
  let w := with_failing (world_of "." two_files ["."] 7 80) "./a.txt" OSError in
  let a := mkArgs CMD_RENAME ["new-$(0)"] (Some "txt") "." false false false None in
  (exists l n, Rename.rename_all w a "." "new-$(0)" ["a.txt"; "b.txt"] 0 = (l, Ok n) /\
               0 <= n <= 0 + 2) /\
  ((exists msg, run_command w a (os_walk w true ".") [] = ([EvPrint msg], Raise SystemExit)) \/
   (exists log d f,
       run_command w a (os_walk w true ".") [] =
       (log, Ok [("Summary", [("Directories renamed: ", VInt d);
                              ("Files renamed: ", VInt f)])]))).
Proof.
  pose proof (rename_run_completes
                (with_failing (world_of "." two_files ["."] 7 80) "./a.txt" OSError)
                (mkArgs CMD_RENAME ["new-$(0)"] (Some "txt") "." false false false None)
                (walk_top_down "." two_files) []) as H.
  destruct H as [Hall Hrun].
  - apply with_failing_no_system_exit; [apply world_of_no_system_exit | discriminate].
  - reflexivity.
  - split; [apply (Hall "." "new-$(0)" ["a.txt"; "b.txt"] 0) | exact Hrun].
Defined.

(** ** Delete *)

Lemma no_exit_remove_files (w : World) (a : Args) (sub_root : string)
      (sub_files : list string) :
  no_system_exit w -> no_exit (Delete.remove_files w a sub_root sub_files).
Proof.
  intros (_ & Hrem & _). induction sub_files as [|f rest IH]; [apply no_exit_Ok|].
  cbn [Delete.remove_files]. unfold mbind, M_bind.
  apply no_exit_bind; [apply no_exit_sys, Hrem|]. intros _.
  apply no_exit_bind; [apply no_exit_print_info|]. intros _. exact IH.
Qed.

Lemma no_exit_remove_dirs (w : World) (a : Args) (sub_root : string)
      (sub_dirs : list string) :
  no_system_exit w -> no_exit (Delete.remove_dirs w a sub_root sub_dirs).
Proof.
  intros (_ & _ & Hrm & _). induction sub_dirs as [|d rest IH]; [apply no_exit_Ok|].
  cbn [Delete.remove_dirs]. unfold mbind, M_bind.
  apply no_exit_bind; [apply no_exit_sys, Hrm|]. intros _.
  apply no_exit_bind; [apply no_exit_print_info|]. intros _. exact IH.
Qed.

Lemma no_exit_remove_tree (w : World) (a : Args) (entries : list WalkEntry) :
  no_system_exit w -> no_exit (Delete.remove_tree w a entries).
Proof.
  intros Hw. induction entries as [|e rest IH]; [apply no_exit_Ok|].
  cbn [Delete.remove_tree]. unfold mbind, M_bind.
  apply no_exit_bind; [apply no_exit_Ok|]. intros _.
  apply no_exit_bind; [now apply no_exit_remove_files|]. intros _.
  apply no_exit_bind; [now apply no_exit_remove_dirs|]. intros _. exact IH.
Qed.

Lemma delete_ok (w : World) (a : Args) (root name : string) (directory : bool) :
  no_system_exit w ->
  exists l b, Delete.delete w a root name directory = (l, Ok b).
Proof.
  intros Hw. pose proof Hw as (_ & Hrem & Hrm & _). unfold Delete.delete.
  destruct (name_hidden a name); [now exists [], false|].
  destruct (re_search w (pattern_text a) name) as [m|]; [|now exists [], false].
  apply try_except_ok.
  - unfold mbind, M_bind. apply no_exit_bind.
    + destruct directory; [|apply no_exit_sys, Hrem].
      apply no_exit_bind; [now apply no_exit_remove_tree|]. intros _.
      apply no_exit_sys, Hrm.
    + intros _. apply no_exit_bind; [apply no_exit_print_output|]. intros _.
      apply no_exit_Ok.
  - intros e. destruct (print_error_ok a ("Could not rename directory "
                 +:+ name +:+ ": " +:+ exn_str w e)) as [l Hl].
    unfold mbind, M_bind, mbind'. rewrite Hl. now eexists _, _.
Qed.

Lemma delete_all_ok (w : World) (a : Args) (root : string) (directory : bool)
      (names : list string) (count : nat) :
  no_system_exit w ->
  exists l n, Delete.delete_all w a root directory names count = (l, Ok n) /\
              count <= n <= count + length names.
Proof.
  intros Hw. revert count; induction names as [|name rest IH]; intros count.
  - exists [], count. split; [reflexivity | simpl; lia].
  - cbn [Delete.delete_all]. unfold mbind, M_bind, mbind'.
    destruct (delete_ok w a root name directory Hw) as (l1 & b & ->).
    destruct (IH (if b then count + 1 else count)) as (l2 & n & -> & Hn).
    exists (l1 ++ l2), n. split; [reflexivity|]. destruct b; simpl; lia.
Qed.

(** X2. In a world whose operations do not exit the process, a [delete] run
    cannot be stopped by an entry: a failure of [os.remove] or [os.rmdir],
    at the entry or anywhere below a matched directory, is caught.  Each loop
    over names ends normally with a count raised by at most the number of
    names, and the run either stops at once on a usage error or returns its
    summary. *)
Theorem delete_run_completes (w : World) (a : Args) (td bu : list WalkEntry) :
  no_system_exit w ->
  command a = CMD_DELETE ->
  (forall root directory names count,
      exists l n, Delete.delete_all w a root directory names count = (l, Ok n) /\
                  count <= n <= count + length names) /\
  ((exists msg, run_command w a td bu = ([EvPrint msg], Raise SystemExit)) \/
   (exists log d f,
       run_command w a td bu =
       (log, Ok [("Summary", [("Directories deleted: ", VInt d);
                              ("Files deleted: ", VInt f)])]))).
Proof.
  intros Hw Hc. split; [intros; now apply delete_all_ok|].
  unfold run_command. rewrite Hc. unfold Delete.handler.
  destruct (options a); [|left; eexists; reflexivity].
  destruct (negb (truthy (pattern a))); [left; eexists; reflexivity|].
  right. unfold mbind, M_bind.
  destruct (for_walk_ok a (Delete.body w a) td (0, 0)) as (l & [d f] & Hl).
  - intros root dirs files [d0 f0]. unfold Delete.body, mbind, M_bind, mbind'. cbn [fst snd].
    destruct (delete_all_ok w a root true dirs d0 Hw) as (l1 & d & -> & _).
    destruct (delete_all_ok w a root false files f0 Hw) as (l2 & f & -> & _).
    now eexists _, _.
  - unfold mbind'. rewrite Hl. now eexists _, d, f.
Qed.

Lemma delete_run_completes_witness :
  let w := world_of "." small_tree ["."] 7 80 in
  let a := mkArgs CMD_DELETE [] (Some "sub") "." false false false None in
  (exists l n, Delete.delete_all w a "." true ["sub"] 0 = (l, Ok n) /\ 0 <= n <= 0 + 1) /\
  ((exists msg, run_command w a (walk_top_down "." small_tree) [] =
                ([EvPrint msg], Raise SystemExit)) \/
   (exists log d f,
       run_command w a (walk_top_down "." small_tree) [] =
       (log, Ok [("Summary", [("Directories deleted: ", VInt d);
                              ("Files deleted: ", VInt f)])]))).
Proof.
  pose proof (delete_run_completes (world_of "." small_tree ["."] 7 80)
                (mkArgs CMD_DELETE [] (Some "sub") "." false false false None)
                (walk_top_down "." small_tree) []) as H.
  destruct H as [Hall Hrun].
  - apply world_of_no_system_exit.
  - reflexivity.
  - split; [apply (Hall "." true ["sub"] 0) | exact Hrun].
Defined.

(** ** The names a handler acts on *)

Lemma mbind_nil_Ok {A B : Type} (x : A) (k : A -> M B) :
  mbind' ([], Ok x) k = k x.
Proof. unfold mbind'. now destruct (k x). Qed.

Lemma selected_false (w : World) (a : Args) (name : string) :
  selected w a name = false ->
  name_hidden a name = true \/
  (name_hidden a name = false /\ re_search w (pattern_text a) name = None).
Proof.
  unfold selected, matches. destruct (name_hidden a name); [now left|].
  destruct (re_search _ _ _); [discriminate | now right].
Qed.

Lemma rename_unselected (w : World) (a : Args) (root name new_name : string) :
  selected w a name = false -> Rename.rename w a root name new_name = ([], Ok false).
Proof.
  intros [H | [H1 H2]]%selected_false; unfold Rename.rename;
    [now rewrite H | now rewrite H1, H2].
Qed.

Lemma delete_unselected (w : World) (a : Args) (root name : string) (directory : bool) :
  selected w a name = false -> Delete.delete w a root name directory = ([], Ok false).
Proof.
  intros [H | [H1 H2]]%selected_false; unfold Delete.delete;
    [now rewrite H | now rewrite H1, H2].
Qed.

Lemma copy_unselected (w : World) (a : Args) (root name dst : string) (is_dir : bool) :
  selected w a name = false -> Copy.move_item w a root name dst is_dir = ([], Ok false).
Proof.
  intros [H | [H1 H2]]%selected_false; unfold Copy.move_item;
    [now rewrite H | now rewrite H1, H2].
Qed.

Lemma move_unselected (w : World) (a : Args) (root name dst : string) (is_dir : bool) :
  selected w a name = false -> Move.move_item w a root name dst is_dir = ([], Ok false).
Proof.
  intros [H | [H1 H2]]%selected_false; unfold Move.move_item;
    [now rewrite H | now rewrite H1, H2].
Qed.

(** X3. [rename], [delete], [copy] and [move] act only on the names that are
    not hidden and that the pattern matches: the other names of a directory
    cause no operation and no output and leave the counts alone, so that
    every loop over names gives the same as the loop over the selected names
    alone. *)
Theorem handlers_act_on_selected_names (w : World) (a : Args) (root : string)
        (names : list string) (count : nat) :
  (forall new_name,
      Rename.rename_all w a root new_name names count =
      Rename.rename_all w a root new_name (List.filter (selected w a) names) count) /\
  (forall directory,
      Delete.delete_all w a root directory names count =
      Delete.delete_all w a root directory (List.filter (selected w a) names) count) /\
  (forall output_path is_dir,
      Copy.move_all w a root output_path is_dir names count =
      Copy.move_all w a root output_path is_dir (List.filter (selected w a) names) count) /\
  (forall output_path is_dir,
      Move.move_all w a root output_path is_dir names count =
      Move.move_all w a root output_path is_dir (List.filter (selected w a) names) count).
Proof.
  repeat split; intros; revert count;
    (induction names as [|name rest IH]; intros count; [reflexivity|]);
    cbn [List.filter]; destruct (selected w a name) eqn:Hsel.
  - cbn [Rename.rename_all]. unfold mbind, M_bind, mbind'.
    destruct (Rename.rename _ _ _ _ _) as [l [b|e]]; [|reflexivity]. now rewrite IH.
  - cbn [Rename.rename_all]. unfold mbind, M_bind.
    rewrite (rename_unselected _ _ _ _ _ Hsel), mbind_nil_Ok. apply IH.
  - cbn [Delete.delete_all]. unfold mbind, M_bind, mbind'.
    destruct (Delete.delete _ _ _ _ _) as [l [b|e]]; [|reflexivity]. now rewrite IH.
  - cbn [Delete.delete_all]. unfold mbind, M_bind.
    rewrite (delete_unselected _ _ _ _ _ Hsel), mbind_nil_Ok. apply IH.
  - cbn [Copy.move_all]. unfold mbind, M_bind, mbind'.
    destruct (Copy.move_item _ _ _ _ _ _) as [l [b|e]]; [|reflexivity]. now rewrite IH.
  - cbn [Copy.move_all]. unfold mbind, M_bind.
    rewrite (copy_unselected _ _ _ _ _ _ Hsel), mbind_nil_Ok. apply IH.
  - cbn [Move.move_all]. unfold mbind, M_bind, mbind'.
    destruct (Move.move_item _ _ _ _ _ _) as [l [b|e]]; [|reflexivity]. now rewrite IH.
  - cbn [Move.move_all]. unfold mbind, M_bind.
    rewrite (move_unselected _ _ _ _ _ _ Hsel), mbind_nil_Ok. apply IH.
Qed.

(** ** List *)

Lemma print_line_to_file (w : World) (a : Args) (text out_file : string) :
  output a = Some out_file ->
  print_line w a (Plain text) = ([EvWrite (text +:+ NL)], Ok tt).
Proof. intros H. unfold print_line, print_output. now rewrite H. Qed.

Lemma listed_unfold (w : World) (a : Args) (name : string) :
  listed w a name =
  negb (name_hidden a name) &&
  (negb (truthy (pattern a)) ||
   match re_search w (pattern_text a) name with Some _ => true | None => false end).
Proof. reflexivity. Qed.

Lemma matches_unfold (w : World) (p text : string) :
  matches w p text = match re_search w p text with Some _ => true | None => false end.
Proof. reflexivity. Qed.



(** ** Search: the lines of a file *)

Lemma scan_lines_result (w : World) (a : Args) (full_path p : string)
        (contents : list string) (i : nat) (printed : bool) (hits : nat) :
  exists log,
    Search.scan_lines w a full_path p contents i printed hits =
    (log, Ok (printed || existsb (matches w p) contents,
              hits + length (List.filter (matches w p) contents))) /\
    length log =
    length (List.filter (matches w p) contents) +
    (if printed then 0 else if existsb (matches w p) contents then 1 else 0).
Proof.
  revert i printed hits; induction contents as [|line rest IH]; intros i printed hits.
  - exists []. cbn. rewrite orb_false_r, Nat.add_0_r. split; [reflexivity|].
    now destruct printed.
  - cbn [Search.scan_lines List.filter existsb]. rewrite !(matches_unfold w p line).
    destruct (re_search w p line) as [m|].
    + destruct (IH (S i) true (S hits)) as (l2 & Hl2 & Hlen).
      destruct (split_match m) as [[before match_text] after].
      destruct (print_output_hole w a ("    " +:+ pretty (i + 1) +:+ ": " +:+ before)
                  after match_text MATCH_COLOR INFO_COLOR) as [ev Hev].
      unfold mbind, M_bind, mbind'. rewrite Hev, Hl2.
      destruct printed.
      * exists (ev :: l2). split.
        -- cbn. do 3 f_equal. lia.
        -- cbn in *. lia.
      * unfold print_line.
        destruct (print_output_hole w a full_path "" "" MATCH_COLOR RESET_COLOR)
          as [ev0 ->].
        exists (ev0 :: ev :: l2). split.
        -- cbn. do 3 f_equal. lia.
        -- cbn in *. lia.
    + destruct (IH (S i) printed hits) as (l2 & -> & Hlen).
      exists l2. split; [reflexivity|]. exact Hlen.
Qed.


(** ** Output formatter: what a truncated line measures *)

Lemma length_take (n : nat) (s : string) :
  String.length (Str.take n s) = Nat.min n (String.length s).
Proof.
  revert s; induction n as [|n IH]; intros [|c s]; simpl; try reflexivity.
  now rewrite IH.
Qed.

Lemma take_append_le (n : nat) (s t : string) :
  n <= String.length s -> Str.take n (s +:+ t) = Str.take n s.
Proof.
  revert s; induction n as [|n IH]; intros s Hn.
  - now destruct s, t.
  - destruct s as [|c s]; simpl in Hn; [lia|].
    rewrite append_cons. simpl. rewrite IH by lia. reflexivity.
Qed.

Lemma length_slice_to (s : string) (z : Z) :
  (0 <= z)%Z -> String.length (Str.slice_to s z) <= Z.to_nat z.
Proof.
  intros Hz. unfold Str.slice_to. destruct (Z.ltb_spec z 0); [lia|].
  rewrite length_take. lia.
Qed.

Lemma visible_length_from_le (b : bool) (s : string) :
  visible_length_from b s <= String.length s.
Proof.
  revert b; induction s as [|c s IH]; intros b; [reflexivity|].
  cbn [visible_length_from String.length]. destruct b.
  - specialize (IH (negb ((64 <=? nat_of_ascii c) && negb (Ascii.eqb c "[")))). lia.
  - destruct (Ascii.eqb c (ascii_of_nat 27)).
    + specialize (IH true). lia.
    + specialize (IH false). lia.
Qed.

Lemma visible_length_no_escape (s t : string) :
  no_escape s = true ->
  visible_length_from false (s +:+ t) = String.length s + visible_length_from false t.
Proof.
  induction s as [|c s IH]; [reflexivity|]. cbn [no_escape]. intros H.
  apply andb_prop in H as [Hc H]. apply negb_true_iff in Hc.
  rewrite append_cons. cbn [visible_length_from String.length].
  rewrite Hc, (IH H). reflexivity.
Qed.

Lemma no_escape_take (n : nat) (s : string) :
  no_escape s = true -> no_escape (Str.take n s) = true.
Proof.
  revert s; induction n as [|n IH]; intros [|c s]; try reflexivity.
  cbn [no_escape Str.take]. intros H. apply andb_prop in H as [Hc H].
  now rewrite Hc, IH.
Qed.

(** The reset sequence takes no column, wherever the text before it stops. *)
Lemma visible_length_reset (b : bool) (s : string) :
  visible_length_from b (s +:+ RESET_COLOR) = visible_length_from b s.
Proof.
  revert b; induction s as [|c s IH]; intros b; [now destruct b|].
  rewrite append_cons. cbn [visible_length_from].
  destruct b; [apply IH|]. destruct (Ascii.eqb c (ascii_of_nat 27)); now rewrite IH.
Qed.

(** The two wrap colors the program uses take no column. *)
Lemma visible_length_wrap (wrapColor s : string) :
  wrapColor = RESET_COLOR \/ wrapColor = INFO_COLOR ->
  visible_length (wrapColor +:+ s) = visible_length s.
Proof. intros [-> | ->]; reflexivity. Qed.

Lemma render_line_hole_bound (width : Z) (pre post match_ color wrapColor : string) :
  (3 + Z.of_nat (String.length color) + Z.of_nat (String.length wrapColor) <= width)%Z ->
  exists r, render_line width (Hole pre post) match_ color wrapColor = Ok r /\
            (Z.of_nat (String.length r) <= width)%Z.
Proof.
  intros Hw. unfold render_line.
  destruct (Z.ltb_spec width
              (Z.of_nat (String.length (format (Hole pre post)
                                          (color +:+ match_ +:+ wrapColor))))) as [Hlong|Hfit].
  - cbn [index_placeholder mbind result_bind rbind].
    change (exists r,
      (if (Z.of_nat (String.length pre) <? width - 3)%Z
       then Ok (Str.slice_to (format (Hole pre post) (color +:+ match_ +:+ wrapColor))
                  (width - 3 - Z.of_nat (String.length color)
                   - Z.of_nat (String.length wrapColor)) +:+ "...")
       else Ok (Str.slice_to (format (Hole pre post) (color +:+ match_ +:+ wrapColor))
                  (width - 3) +:+ "...")) = Ok r /\
      (Z.of_nat (String.length r) <= width)%Z).
    destruct (_ <? _)%Z; eexists; (split; [reflexivity|]); rewrite length_append.
    + pose proof (length_slice_to (format (Hole pre post) (color +:+ match_ +:+ wrapColor))
                    (width - 3 - Z.of_nat (String.length color)
                     - Z.of_nat (String.length wrapColor))) as H.
      simpl (String.length "..."). lia.
    + pose proof (length_slice_to (format (Hole pre post) (color +:+ match_ +:+ wrapColor))
                    (width - 3)) as H.
      simpl (String.length "..."). lia.
  - eexists. split; [reflexivity | exact Hfit].
Qed.





(** ** Lines without a placeholder *)

Lemma print_line_plain_too_long (w : World) (a : Args) (text : string) :
  output a = None ->
  (get_terminal_width w < Z.of_nat (String.length text))%Z ->
  print_line w a (Plain text) = ([], Raise ValueError).
Proof.
  intros Hout Hlong. unfold print_line, print_output, render_line. rewrite Hout.
  cbn [format]. apply Z.ltb_lt in Hlong. now rewrite Hlong.
Qed.



(** ** Fatal errors *)

Lemma exit1_shape {A : Type} (msg : string) :
  exists log, @exit1 A msg = (log, Raise SystemExit) /\
              length log <= 1 /\ forall ev, In ev log -> exists m, ev = EvPrint m.
Proof.
  exists [EvPrint msg]. repeat split; [simpl; lia|].
  intros ev [<- | []]. now exists msg.
Qed.

Lemma run_command_usage_error (w : World) (a : Args) (td bu : list WalkEntry) :
  length (options a) <> options_expected (command a) \/
  (needs_pattern (command a) = true /\ truthy (pattern a) = false) \/
  (exists p, command a = CMD_SEARCH /\ options a = [p] /\ re_valid w p = false) ->
  exists msg, run_command w a td bu = ([EvPrint msg], Raise SystemExit).
Proof.
  unfold run_command.
  intros [Hn | [[Hp Ht] | (p & Hc & Ho & Hv)]].
  - destruct (command a); cbn in Hn;
      unfold Search.handler, List_.handler, Size.handler, Rename.handler,
             Delete.handler, Copy.handler, Move.handler;
      destruct (options a) as [|o [|o' rest]]; cbn in Hn; try lia;
        eexists; reflexivity.
  - destruct (command a); try discriminate Hp;
      unfold Rename.handler, Delete.handler, Copy.handler, Move.handler;
      destruct (options a) as [|o [|o' rest]]; rewrite ?Ht; eexists; reflexivity.
  - rewrite Hc. unfold Search.handler. rewrite Ho, Hv. eexists; reflexivity.
Qed.

(** X9. A fatal error ends the run before anything is walked or touched: when
    a pattern does not compile, the directory does not exist, the output file
    cannot be opened, the number of options is wrong or a required pattern is
    missing, [main] exits, having at most printed one message; it takes no
    entry from a walk, performs no file operation and prints no summary. *)
Theorem fatal_error_before_traversal (w : World) (a : Args) :
  fatal_error w a ->
  exists log,
    main w a = (log, Raise SystemExit) /\
    length log <= 1 /\
    forall ev, In ev log -> exists msg, ev = EvPrint msg.
Proof.
  intros Hfatal. unfold fatal_error in Hfatal. unfold main, mbind, M_bind, mret.
  assert (Hexit : forall A (msg : string) (k : unit -> M A), 
             exists log, mbind' (exit1 msg) k = (log, Raise SystemExit) /\
                         length log <= 1 /\
                         forall ev, In ev log -> exists m, ev = EvPrint m).
  { intros A msg k. exists [EvPrint msg]. repeat split; [simpl; lia|].
    intros ev [<- | []]. now exists msg. }
  destruct (pattern a) as [p|] eqn:Hp.
  - destruct (re_valid w p) eqn:Hv; [|apply Hexit]. rewrite mbind_nil_Ok.
    destruct (os_path_isdir w (directory a)) eqn:Hd; [|apply Hexit].
    rewrite mbind_nil_Ok.
    destruct Hfatal as [(p' & [= <-] & Hv') | [Hd' | Hrest]]; [congruence | congruence |].
    destruct (output a) as [f|] eqn:Ho.
    + destruct (open_output w f) as [[]|e] eqn:Hopen.
      * cbn [lift try_except]. rewrite mbind_lift_Ok.
        destruct Hrest as [(f' & e' & [= <-] & He') | Hrest]; [congruence|].
        rewrite <- Hp in Hrest.
      destruct (run_command_usage_error w a (os_walk w true (directory a))
                    (os_walk w false (directory a)) Hrest) as [msg ->].
        exists [EvPrint msg]. repeat split; [simpl; lia|].
        intros ev [<- | []]. now exists msg.
      * cbn [lift try_except]. destruct (is_exception e) eqn:He.
        -- exists [EvPrint ("Could not open output file '" +:+ f +:+ "'")].
           split; [reflexivity|]. split; [simpl; lia|].
           intros ev [<- | []]. now eexists.
        -- destruct e; try discriminate He. exists [].
           split; [reflexivity|]. split; [simpl; lia|]. intros ev [].
    + rewrite mbind_nil_Ok.
      destruct Hrest as [(f' & e' & [=] & He') | Hrest].
      rewrite <- Hp in Hrest.
      destruct (run_command_usage_error w a (os_walk w true (directory a))
                  (os_walk w false (directory a)) Hrest) as [msg ->].
      exists [EvPrint msg]. repeat split; [simpl; lia|].
      intros ev [<- | []]. now exists msg.
  - rewrite mbind_nil_Ok.
    destruct (os_path_isdir w (directory a)) eqn:Hd; [|apply Hexit].
    rewrite mbind_nil_Ok.
    destruct Hfatal as [(p' & [=] & Hv') | [Hd' | Hrest]]; [congruence |].
    destruct (output a) as [f|] eqn:Ho.
    + destruct (open_output w f) as [[]|e] eqn:Hopen.
      * cbn [lift try_except]. rewrite mbind_lift_Ok.
        destruct Hrest as [(f' & e' & [= <-] & He') | Hrest]; [congruence|].
        rewrite <- Hp in Hrest.
      destruct (run_command_usage_error w a (os_walk w true (directory a))
                    (os_walk w false (directory a)) Hrest) as [msg ->].
        exists [EvPrint msg]. repeat split; [simpl; lia|].
        intros ev [<- | []]. now exists msg.
      * cbn [lift try_except]. destruct (is_exception e) eqn:He.
        -- exists [EvPrint ("Could not open output file '" +:+ f +:+ "'")].
           split; [reflexivity|]. split; [simpl; lia|].
           intros ev [<- | []]. now eexists.
        -- destruct e; try discriminate He. exists [].
           split; [reflexivity|]. split; [simpl; lia|]. intros ev [].
    + rewrite mbind_nil_Ok.
      destruct Hrest as [(f' & e' & [=] & He') | Hrest].
      rewrite <- Hp in Hrest.
      destruct (run_command_usage_error w a (os_walk w true (directory a))
                  (os_walk w false (directory a)) Hrest) as [msg ->].
      exists [EvPrint msg]. repeat split; [simpl; lia|].
      intros ev [<- | []]. now exists msg.
Qed.

Lemma fatal_error_before_traversal_witness :
  let w := world_of "." small_tree ["."] 7 80 in
  let a := mkArgs CMD_DELETE [] None "." true true true None in
  exists log,
    main w a = (log, Raise SystemExit) /\
    length log <= 1 /\
    forall ev, In ev log -> exists msg, ev = EvPrint msg.
Proof.
  apply (fatal_error_before_traversal (world_of "." small_tree ["."] 7 80)
           (mkArgs CMD_DELETE [] None "." true true true None)).
  right. right. right. right. left. split; reflexivity.
Defined.

(** ** Template substitution, piece by piece *)

Lemma match_token_app_outer (s : string) (c : ascii) (y : string) :
  s <> "" -> token_inner c = false ->
  match_token (s +:+ String c y) = match_token s.
Proof.
  unfold token_inner. intros Hs Hc.
  apply orb_false_elim in Hc as [Hc Hclose]. apply orb_false_elim in Hc as [Hopen Hdig].
  destruct s as [|c1 [|c2 r]]; [congruence | |].
  - change (match_token (String c1 (String c y)) = None).
    unfold match_token. rewrite Hopen. now rewrite andb_false_r.
  - change (match_token (String c1 (String c2 (r +:+ String c y)))
            = match_token (String c1 (String c2 r))).
    unfold match_token. destruct (Ascii.eqb c1 "$" && Ascii.eqb c2 "("); [|reflexivity].
    rewrite (span_digits_app_stop r c y Hdig).
    destruct (span_digits r) as [[|d ds] [|c3 r']]; cbn [fst snd]; try reflexivity.
    rewrite append_nil_l. now rewrite Hclose.
Qed.

Lemma re_sub_token_append repl (a : string) (c : ascii) (y : string) (skip : nat) :
  token_inner c = false ->
  skip <= String.length a ->
  re_sub_token repl (a +:+ String c y) skip =
  rbind (re_sub_token repl a skip) (fun ra =>
    rbind (re_sub_token repl (String c y) 0) (fun rb => Ok (ra +:+ rb))).
Proof.
  intros Hc. remember (re_sub_token repl (String c y) 0) as rx eqn:Hrx.
  revert skip; induction a as [|c1 r IH]; intros skip Hskip.
  - simpl in Hskip. replace skip with 0 by lia. rewrite append_nil_l, <- Hrx.
    change (re_sub_token repl "" 0) with (Ok "" : result string). cbn [rbind].
    now destruct rx.
  - rewrite append_cons. destruct skip as [|k].
    + rewrite !re_sub_token_cons. rewrite <- append_cons.
      rewrite (match_token_app_outer (String c1 r) c y) by (discriminate || assumption).
      destruct (match_token (String c1 r)) as [ds|] eqn:Hm.
      * destruct (match_token_Some _ _ Hm) as (rest & Heq & _ & _).
        assert (String.length ds + 2 <= String.length r) as Hlen.
        { apply (f_equal String.length) in Heq. unfold token in Heq.
          rewrite !length_append in Heq. simpl in Heq. lia. }
        rewrite (IH _ Hlen).
        destruct (repl ds) as [v|e]; [|reflexivity]. cbn [rbind].
        destruct (re_sub_token repl r (String.length ds + 2)); [|reflexivity].
        cbn [rbind]. destruct rx; [|reflexivity].
        cbn [rbind]. now rewrite append_assoc.
      * rewrite (IH 0) by lia.
        destruct (re_sub_token repl r 0); [|reflexivity]. cbn [rbind].
        now destruct rx.
    + cbn [re_sub_token]. apply IH. simpl in Hskip. lia.
Qed.

(** X10. A template can be substituted piece by piece when it is cut before
    a character that cannot stand inside a token (anything but a digit or a
    parenthesis): the result is the two results put together.  So for a
    destination ending with a separator, to which the handler appends the
    name, the tokens of the name are replaced as well as those of the
    destination. *)
Theorem regex_sub_append (m : Match) (a : string) (c : ascii) (y : string) :
  token_inner c = false ->
  (exists ra rb,
      regex_sub m a = Ok ra /\ regex_sub m (String c y) = Ok rb /\
      regex_sub m (a +:+ String c y) = Ok (ra +:+ rb)) /\
  (c = "/"%char ->
   exists ra ry,
     regex_sub m a = Ok ra /\ regex_sub m y = Ok ry /\
     regex_sub m ((a +:+ "/") +:+ y) = Ok (ra +:+ "/" +:+ ry)).
Proof.
  intros Hc.
  destruct (regex_sub_total m a) as [ra Ha].
  destruct (regex_sub_total m (String c y)) as [rb Hb].
  assert (Hab : regex_sub m (a +:+ String c y) = Ok (ra +:+ rb)).
  { unfold regex_sub in *. rewrite (re_sub_token_append _ a c y 0 Hc) by lia.
    now rewrite Ha, Hb. }
  split; [now exists ra, rb|]. intros ->.
  destruct (regex_sub_total m y) as [ry Hy].
  exists ra, ry. split; [assumption|]. split; [assumption|].
  rewrite append_assoc. change ("/" +:+ y) with (String "/" y). rewrite Hab.
  unfold regex_sub in Hb, Hy. rewrite re_sub_token_cons in Hb.
  assert (match_token (String "/" y) = None) as Hm by now destruct y.
  rewrite Hm in Hb.
  rewrite Hy in Hb. cbn [rbind] in Hb. injection Hb as <-. reflexivity.
Qed.

Lemma regex_sub_append_witness :
  (exists ra rb,
      regex_sub abc_match "out-$(1)" = Ok ra /\
      regex_sub abc_match "/$(2).bak" = Ok rb /\
      regex_sub abc_match ("out-$(1)" +:+ "/$(2).bak") = Ok (ra +:+ rb)) /\
  ("/"%char = "/"%char ->
   exists ra ry,
     regex_sub abc_match "out-$(1)" = Ok ra /\ regex_sub abc_match "$(2).bak" = Ok ry /\
     regex_sub abc_match (("out-$(1)" +:+ "/") +:+ "$(2).bak") = Ok (ra +:+ "/" +:+ ry)).
Proof.
  apply (regex_sub_append abc_match "out-$(1)" "/" "$(2).bak"). reflexivity.
Defined.

(** ** Path normalizer: fixed points *)

Lemma length_slash1 (s : string) : String.length (slash1 s) = String.length s.
Proof.
  induction s as [|c r IH]; [reflexivity|]. rewrite slash1_cons. simpl. now rewrite IH.
Qed.

Lemma length_slash2 (s : string) :
  String.length (slash2 s) <= String.length s /\
  (no_double_slash s = false -> String.length (slash2 s) < String.length s).
Proof.
  induction s as [|c|c d r [IHr _] [IHd IHd']] using string_ind2.
  - split; [reflexivity | discriminate].
  - rewrite slash2_one. split; [reflexivity|]. cbn. now rewrite andb_false_r.
  - rewrite slash2_cons. cbn [no_double_slash hd_slash] in *.
    destruct (Ascii.eqb "/" c && Ascii.eqb "/" d) eqn:E; cbn [String.length negb andb] in *.
    + split; lia.
    + split; [lia|]. intros H. specialize (IHd' H). lia.
Qed.

(** X11. The normalizer never makes a path longer, and it leaves a path as
    it is exactly when the path has no backslash and no doubled slash. *)
Theorem fix_path_fixed_points (p : string) :
  String.length (fix_path p) <= String.length p /\
  (fix_path p = p <-> no_backslash p = true /\ no_double_slash p = true).
Proof.
  rewrite fix_path_unfold. split.
  - pose proof (length_slash2 (slash1 p)) as [H _]. rewrite length_slash1 in H. exact H.
  - split.
    + intros Hfix.
      assert (Hb : no_backslash p = true).
      { rewrite <- Hfix. apply slash2_no_backslash, slash1_no_backslash. }
      split; [exact Hb|]. rewrite (slash1_fixed p Hb) in Hfix.
      destruct (no_double_slash p) eqn:Hd; [reflexivity|].
      pose proof (length_slash2 p) as [_ Hlt]. specialize (Hlt Hd).
      rewrite Hfix in Hlt. lia.
    + intros [Hb Hd]. rewrite (slash1_fixed p Hb). now apply slash2_fixed.
Qed.

(** ** Size: the first pass *)

Lemma endswith_slash (s : string) : Str.endswith s "/" = ends_slash s.
Proof.
  induction s as [|c r IH]; [reflexivity|].
  destruct r as [|d r'].
  - unfold Str.endswith. cbn. now destruct (Ascii.eqb c "/").
  - cbn [ends_slash] in *. rewrite <- IH. unfold Str.endswith.
    cbn [String.length Nat.leb Nat.sub andb Str.drop].
    now rewrite !Nat.sub_0_r.
Qed.

Lemma no_backslash_append (s t : string) :
  no_backslash (s +:+ t) = no_backslash s && no_backslash t.
Proof.
  induction s as [|c r IH]; [reflexivity|].
  rewrite append_cons. cbn [no_backslash]. now rewrite IH, andb_assoc.
Qed.

Lemma ends_slash_append (s : string) (c : ascii) (t : string) :
  ends_slash (s +:+ String c t) = ends_slash (String c t).
Proof.
  induction s as [|d r IH]; [reflexivity|].
  rewrite append_cons. destruct r as [|e r']; [reflexivity|].
  rewrite append_cons in *. exact IH.
Qed.

Lemma hd_slash_append (s t : string) :
  s <> "" -> hd_slash (s +:+ t) = hd_slash s.
Proof. destruct s; [congruence | reflexivity]. Qed.

Lemma no_double_slash_append (s t : string) :
  ends_slash s = false ->
  no_double_slash (s +:+ t) = no_double_slash s && no_double_slash t.
Proof.
  induction s as [|c r IH]; [reflexivity|]. intros Hend.
  rewrite append_cons. cbn [no_double_slash].
  destruct r as [|d r'].
  - cbn [ends_slash] in Hend. rewrite append_nil_l. cbn [hd_slash no_double_slash].
    assert (Ascii.eqb "/" c = false) as ->.
    { rewrite Ascii.eqb_sym. exact Hend. }
    reflexivity.
  - rewrite hd_slash_append by discriminate. rewrite IH by exact Hend.
    now rewrite andb_assoc.
Qed.

Lemma contains_slash_props (n : string) :
  Str.contains "/" n = false -> hd_slash n = false /\ ends_slash n = false.
Proof.
  induction n as [|c r IH]; [now split|].
  rewrite contains_char_cons. intros [Hc Hr]%orb_false_elim.
  destruct (IH Hr) as [_ He]. split; [exact Hc|].
  destruct r; [|exact He]. cbn. rewrite Ascii.eqb_sym. exact Hc.
Qed.

Lemma good_name_props (n : string) :
  good_name n = true ->
  n <> "" /\ Str.contains "/" n = false /\ Str.contains "\" n = false.
Proof.
  unfold good_name. intros H. apply andb_prop in H as [H Hb].
  apply andb_prop in H as [He Hs].
  apply negb_true_iff in He, Hs, Hb. repeat split; auto.
  intros ->. discriminate.
Qed.

Lemma good_path_child (top n : string) :
  good_path top -> good_name n = true -> good_path (top +:+ "/" +:+ n).
Proof.
  intros (Hne & Hb & Hd & He) Hn.
  destruct (good_name_props n Hn) as (Hn0 & Hns & Hnb).
  destruct (contains_slash_props n Hns) as [Hhd Hend].
  repeat split.
  - destruct top; [congruence | discriminate].
  - rewrite !no_backslash_append, Hb, (no_backslash_of_contains n Hnb). reflexivity.
  - rewrite no_double_slash_append by exact He. rewrite Hd.
    change ("/" +:+ n) with (String "/" n). cbn [no_double_slash andb].
    rewrite Hhd, (no_double_slash_of_contains n Hns). reflexivity.
  - destruct n as [|c r]; [congruence|].
    change ("/" +:+ String c r) with (String "/" (String c r)).
    rewrite ends_slash_append. exact Hend.
Qed.

Lemma good_path_fix (top : string) : good_path top -> fix_path top = top.
Proof.
  intros (_ & Hb & Hd & _). rewrite fix_path_unfold, (slash1_fixed _ Hb).
  now apply slash2_fixed.
Qed.

Lemma good_path_join (top n : string) :
  good_path top -> good_name n = true ->
  os_path_join top n = top +:+ "/" +:+ n.
Proof.
  intros (Hne & _ & _ & He) Hn. destruct (good_name_props n Hn) as (_ & Hns & _).
  apply os_path_join_plain; auto. now rewrite endswith_slash.
Qed.

Lemma prefix_append_cancel (a b c : string) :
  String.prefix (a +:+ b) (a +:+ c) = String.prefix b c.
Proof.
  induction a as [|x a IH]; [reflexivity|].
  now rewrite !append_cons, prefix_cons, Ascii.eqb_refl, IH.
Qed.

Lemma append_cancel_l (a b c : string) : a +:+ b = a +:+ c -> b = c.
Proof.
  induction a as [|x a IH]; [auto|]. rewrite !append_cons. intros [= H]. auto.
Qed.

Lemma under_child (top n k : string) :
  under (top +:+ "/" +:+ n) k -> under top k.
Proof.
  intros [-> | H]; right.
  - rewrite <- (append_assoc top "/" n). apply prefix_append.
  - apply prefix_inv in H as [post ->]. rewrite !append_assoc.
    rewrite <- (append_assoc top "/"). apply prefix_append.
Qed.

Lemma not_under_sibling (top n n' : string) :
  Str.contains "/" n = false -> n <> n' ->
  ~ under (top +:+ "/" +:+ n') (top +:+ "/" +:+ n).
Proof.
  intros Hn Hne [Heq | Hpre].
  - apply append_cancel_l in Heq. apply append_cancel_l in Heq. congruence.
  - rewrite !append_assoc in Hpre. rewrite prefix_append_cancel in Hpre.
    change ("/" +:+ n' +:+ "/") with (String "/" (n' +:+ "/")) in Hpre.
    change ("/" +:+ n) with (String "/" n) in Hpre.
    rewrite prefix_cons in Hpre. apply andb_prop in Hpre as [_ Hpre].
    apply prefix_inv in Hpre as [post Hpost].
    assert (Str.contains "/" n = true); [|congruence].
    apply contains_iff. exists n', post. now rewrite Hpost, append_assoc.
Qed.

Lemma mbind_assoc {A B C : Type} (m : M A) (k1 : A -> M B) (k2 : B -> M C) :
  mbind' (mbind' m k1) k2 = mbind' m (fun x => mbind' (k1 x) k2).
Proof.
  destruct m as [l [x|e]]; [|reflexivity]. cbn.
  destruct (k1 x) as [l1 [y|e]]; [|reflexivity]. cbn.
  destruct (k2 y) as [l2 r]. now rewrite app_assoc.
Qed.

Lemma mbind_emit {A : Type} (ev : Event) (k : unit -> M A) :
  mbind' (emit ev) k = let '(l, r) := k tt in (ev :: l, r).
Proof. reflexivity. Qed.

Lemma for_walk_all_app {S : Type} (a : Args)
      (body : string -> list string -> list string -> S -> M S)
      (l1 l2 : list WalkEntry) (s : S) :
  for_walk_all a body (l1 ++ l2) s =
  mbind' (for_walk_all a body l1 s) (fun s' => for_walk_all a body l2 s').
Proof.
  revert s; induction l1 as [|e l1 IH]; intros s.
  - cbn [app for_walk_all]. unfold mret. now rewrite mbind_nil_Ok.
  - rewrite <- app_comm_cons, !for_walk_all_cons, mbind_assoc, !mbind_emit.
    destruct (root_hidden a (fix_path (we_root e))); [now rewrite IH|].
    rewrite mbind_assoc.
    destruct (body (fix_path (we_root e)) (we_dirs e) (we_files e) s) as [l [s'|x]];
      [|reflexivity].
    cbn [mbind']. now rewrite IH.
Qed.

Section SizePass.

Variable w : World.
Variable a : Args.
Hypothesis Hhidden : hidden a = true.
Hypothesis Hgetsize : forall p, os_path_getsize w p <> Raise SystemExit.

Lemma name_hidden_all (name : string) : name_hidden a name = false.
Proof. unfold name_hidden. now rewrite Hhidden. Qed.

Lemma root_hidden_all (root : string) : root_hidden a root = false.
Proof. unfold root_hidden. now rewrite Hhidden. Qed.

Lemma add_dirs_sum (sizes : gmap string nat) (root : string)
      (dirs : list string) (acc : nat) :
  Size.add_dirs a sizes root dirs acc =
  acc + list_sum (map (fun d => default 0 (sizes !! (root +:+ "/" +:+ d))) dirs).
Proof.
  revert acc; induction dirs as [|d rest IH]; intros acc; cbn [Size.add_dirs map].
  - simpl. lia.
  - rewrite name_hidden_all, IH. simpl. lia.
Qed.

Lemma file_size_Ok (p : string) (n : nat) :
  os_path_getsize w p = Ok n -> file_size w p = n.
Proof. unfold file_size. now intros ->. Qed.

Lemma file_size_Raise (p : string) (e : exn) :
  os_path_getsize w p = Raise e -> file_size w p = 0.
Proof. unfold file_size. now intros ->. Qed.

Lemma add_files_ok (root : string) (names : list string)
      (sizes : gmap string nat) (acc : nat) :
  exists log sizes',
    Size.add_files w a root names (sizes, acc) =
    (log, Ok (sizes', acc + list_sum (map (fun f => file_size w (root +:+ "/" +:+ f)) names))) /\
    (forall k, (forall f, In f names -> k <> root +:+ "/" +:+ f) ->
               sizes' !! k = sizes !! k) /\
    (NoDup names ->
     forall f, In f names -> sizes !! (root +:+ "/" +:+ f) = None ->
               default 0 (sizes' !! (root +:+ "/" +:+ f)) = file_size w (root +:+ "/" +:+ f)).
Proof.
  revert sizes acc; induction names as [|f rest IH]; intros sizes acc.
  - exists [], sizes. cbn. rewrite Nat.add_0_r. repeat split; auto. intros _ f [].
  - cbn [Size.add_files map list_sum]. rewrite name_hidden_all.
    unfold mbind, M_bind, sys.
    assert (Hkey : forall f', f' <> f -> root +:+ "/" +:+ f <> root +:+ "/" +:+ f').
    { intros f' Hne Heq. apply append_cancel_l in Heq. apply append_cancel_l in Heq.
      congruence. }
    destruct (os_path_getsize w (root +:+ "/" +:+ f)) as [size|e] eqn:Hsz.
    + destruct (print_info_ok a (DQ +:+ (root +:+ "/" +:+ f) +:+ DQ +:+ " => "
                                   +:+ get_byte_string w (acc + size))) as [li Hli].
      cbn [mbind' fst snd]. rewrite Hli. unfold mret, mbind', try_except.
      destruct (IH (<[root +:+ "/" +:+ f := size]> sizes) (acc + size))
        as (l2 & sizes' & Hrun & Hkeep & Hfiles).
      rewrite Hrun. eexists _, sizes'.
      split; [|split].
      * rewrite (file_size_Ok _ _ Hsz). simpl list_sum. rewrite Nat.add_assoc.
        reflexivity.
      * intros k Hk. rewrite Hkeep by (intros f' Hf'; apply Hk; now right).
        apply lookup_insert_ne. intros Heq. apply (Hk f); [now left | now symmetry].
      * intros Hnd f' Hin Hnone. apply NoDup_cons in Hnd as [Hnotin Hnd].
        destruct Hin as [<- | Hin].
        -- rewrite Hkeep.
           ++ rewrite lookup_insert_eq. cbn. now rewrite (file_size_Ok _ _ Hsz).
           ++ intros f' Hf' Heq. apply (Hkey f'); [|exact Heq].
              intros ->. apply Hnotin. now apply list_elem_of_In.
        -- apply (Hfiles Hnd f' Hin). rewrite lookup_insert_ne; [exact Hnone|].
           apply Hkey. intros ->. apply Hnotin. now apply list_elem_of_In.
    + assert (is_exception e = true) as He.
      { destruct e; try reflexivity. exfalso. now apply (Hgetsize (root +:+ "/" +:+ f)). }
      destruct (print_error_ok a ("Could not get size of file " +:+ (root +:+ "/" +:+ f)
                                    +:+ ": " +:+ exn_str w e)) as [le Hle].
      cbn [mbind' fst snd]. unfold mret, mbind', try_except. rewrite He, Hle.
      destruct (IH sizes acc) as (l2 & sizes' & Hrun & Hkeep & Hfiles).
      rewrite Hrun. eexists _, sizes'.
      split; [|split].
      * rewrite (file_size_Raise _ _ Hsz). simpl list_sum. reflexivity.
      * intros k Hk. apply Hkeep. intros f' Hf'. apply Hk. now right.
      * intros Hnd f' Hin Hnone. apply NoDup_cons in Hnd as [Hnotin Hnd].
        destruct Hin as [<- | Hin]; [|now apply Hfiles].
        rewrite Hkeep.
        -- rewrite Hnone. cbn. now rewrite (file_size_Raise _ _ Hsz).
        -- intros f' Hf' Heq. apply (Hkey f'); [|exact Heq].
           intros ->. apply Hnotin. now apply list_elem_of_In.
Qed.

(** What the first pass does on one tree: it ends normally, records the
    total of the tree at [top], and changes no entry outside [top]. *)
Definition pass1_spec (t : Tree) : Prop :=
  forall top sizes,
    good_path top -> good_tree t ->
    exists log sizes',
      for_walk_all a (Size.body1 w a) (walk_bottom_up top t) sizes = (log, Ok sizes') /\
      sizes' !! top = Some (tree_size w top t) /\
      (forall k, ~ under top k -> sizes' !! k = sizes !! k).

Lemma pass1_children (top : string) (ds : list Tree) :
  good_path top ->
  Forall pass1_spec ds ->
  NoDup (map dir_name ds) ->
  fold_right (fun d acc => (good_name (dir_name d) = true /\ good_tree d) /\ acc) True ds ->
  forall sizes,
  exists log sizes',
    for_walk_all a (Size.body1 w a)
      (flat_map (fun d => walk_bottom_up (os_path_join top (dir_name d)) d) ds) sizes
    = (log, Ok sizes') /\
    (forall d, In d ds ->
       sizes' !! (top +:+ "/" +:+ dir_name d)
       = Some (tree_size w (top +:+ "/" +:+ dir_name d) d)) /\
    (forall k, (forall d, In d ds -> ~ under (top +:+ "/" +:+ dir_name d) k) ->
       sizes' !! k = sizes !! k).
Proof.
  intros Htop. induction ds as [|d rest IH]; intros Hall Hnd Hgood sizes.
  - exists [], sizes. repeat split; auto. intros d [].
  - apply Forall_cons in Hall as [Hd Hrest]. cbn [map] in Hnd.
    apply NoDup_cons in Hnd as [Hnotin Hnd]. cbn [fold_right] in Hgood.
    destruct Hgood as [[Hname Htree] Hgood].
    cbn [flat_map]. rewrite for_walk_all_app, (good_path_join top _ Htop Hname).
    destruct (Hd (top +:+ "/" +:+ dir_name d) sizes (good_path_child _ _ Htop Hname) Htree)
      as (l1 & sizes1 & Hrun1 & Hroot1 & Hkeep1).
    destruct (IH Hrest Hnd Hgood sizes1) as (l2 & sizes2 & Hrun2 & Hsub2 & Hkeep2).
    rewrite Hrun1. cbn [mbind']. rewrite Hrun2. exists (l1 ++ l2), sizes2.
    split; [reflexivity|]. split.
    + intros d' [<- | Hin]; [|now apply Hsub2].
      rewrite Hkeep2; [exact Hroot1|]. intros d' Hin.
      apply not_under_sibling.
      * now destruct (good_name_props _ Hname) as (_ & ? & _).
      * intros Heq. apply Hnotin. rewrite Heq. apply list_elem_of_In. now apply in_map.
    + intros k Hk. rewrite Hkeep2 by (intros d' Hin; apply Hk; now right).
      apply Hkeep1. apply Hk. now left.
Qed.

Lemma pass1_parent (top n : string) (ds : list Tree) (fs : list string)
      (sizes : gmap string nat) :
  good_path top -> good_tree (Dir n ds fs) -> Forall pass1_spec ds ->
  exists log sizes',
    for_walk_all a (Size.body1 w a) (walk_bottom_up top (Dir n ds fs)) sizes
    = (log, Ok sizes') /\
    sizes' !! top = Some (tree_size w top (Dir n ds fs)) /\
    (forall k, ~ under top k -> sizes' !! k = sizes !! k) /\
    (forall d, In d ds ->
       sizes' !! (top +:+ "/" +:+ dir_name d)
       = Some (tree_size w (top +:+ "/" +:+ dir_name d) d)) /\
    (forall f, In f fs -> sizes !! (top +:+ "/" +:+ f) = None ->
       default 0 (sizes' !! (top +:+ "/" +:+ f)) = file_size w (top +:+ "/" +:+ f)).
Proof.
  intros Htop (Hnd & Hfs & Hgood) Hall.
  apply NoDup_app in Hnd as (Hnd_ds & Hdisj & Hnd_fs).
  assert (Hgood_ds : forall d, In d ds -> good_name (dir_name d) = true).
  { clear -Hgood. induction ds as [|d rest IH]; intros d' []; cbn in Hgood.
    - subst. tauto.
    - apply IH; tauto. }
  assert (Hne_top : forall x, top +:+ "/" +:+ x <> top).
  { intros x Heq. rewrite <- (append_nil_r top) in Heq at 2.
    apply append_cancel_l in Heq. discriminate. }
  assert (Hkey : forall x y, x <> y -> top +:+ "/" +:+ x <> top +:+ "/" +:+ y).
  { intros x y Hxy Heq. apply append_cancel_l in Heq. apply append_cancel_l in Heq.
    congruence. }
  assert (Hunder : forall x, under top (top +:+ "/" +:+ x)).
  { intros x. right. rewrite <- (append_assoc top "/" x). apply prefix_append. }
  destruct (pass1_children top ds Htop Hall Hnd_ds Hgood sizes)
    as (l1 & sizes1 & Hrun1 & Hsub1 & Hkeep1).
  destruct (add_files_ok top fs sizes1
              (Size.add_dirs a sizes1 top (map dir_name ds) 0))
    as (l2 & sizes2 & Hrun2 & Hkeep2 & Hfiles2).
  destruct (print_info_ok a (DQ +:+ top +:+ DQ +:+ " => " +:+ get_byte_string w
              (Size.add_dirs a sizes1 top (map dir_name ds) 0 +
               list_sum (map (fun f => file_size w (top +:+ "/" +:+ f)) fs))))
    as [li Hli].
  cbn [walk_bottom_up]. rewrite for_walk_all_app, Hrun1. cbn [mbind'].
  rewrite for_walk_all_cons. cbn [we_root we_dirs we_files].
  rewrite root_hidden_all, (good_path_fix top Htop), mbind_emit.
  unfold Size.body1, mbind, M_bind. rewrite Hrun2. cbn [mbind' fst snd].
  rewrite Hli. cbn [mbind' for_walk_all mret app].
  eexists _, _. split; [reflexivity|]. split; [|split; [|split]].
  - rewrite lookup_insert_eq. f_equal. rewrite add_dirs_sum. cbn [tree_size].
    rewrite map_map. cbn [Nat.add]. f_equal.
    f_equal. apply map_ext_in. intros d Hd. now rewrite (Hsub1 d Hd).
  - intros k Hk. rewrite lookup_insert_ne by (intros <-; apply Hk; now left).
    rewrite Hkeep2 by (intros f _ ->; apply Hk, Hunder).
    apply Hkeep1. intros d _ Hu. apply Hk. now apply under_child in Hu.
  - intros d Hd. rewrite lookup_insert_ne by (apply not_eq_sym, Hne_top).
    rewrite Hkeep2; [now apply Hsub1|].
    intros f Hf. apply Hkey. intros Heq.
    apply (Hdisj (dir_name d)); apply list_elem_of_In;
      [now apply in_map | now rewrite Heq].
  - intros f Hf Hnone. rewrite lookup_insert_ne by (apply not_eq_sym, Hne_top).
    apply (Hfiles2 Hnd_fs f Hf). rewrite Hkeep1; [exact Hnone|].
    intros d Hd. apply not_under_sibling.
    + rewrite forallb_forall in Hfs. now destruct (good_name_props _ (Hfs f Hf)) as (_ & ? & _).
    + intros ->. apply (Hdisj (dir_name d)); apply list_elem_of_In;
        [now apply in_map | exact Hf].
Qed.

Lemma pass1_tree (t : Tree) : pass1_spec t.
Proof.
  induction t as [n ds fs IH] using Tree_ind'. intros top sizes Htop Hgood.
  destruct (pass1_parent top n ds fs sizes Htop Hgood IH)
    as (log & sizes' & Hrun & Hroot & Hkeep & _).
  now exists log, sizes'.
Qed.

End SizePass.

Lemma pass1_totals (w : World) (a : Args) (top : string) (t : Tree) :
  hidden a = true ->
  (forall p, os_path_getsize w p <> Raise SystemExit) ->
  good_path top -> good_tree t ->
  exists log sizes,
    for_walk_all a (Size.body1 w a) (walk_bottom_up top t) ∅ = (log, Ok sizes) /\
    sizes !! top = Some (tree_size w top t) /\
    (forall d, In d (subdirs t) ->
       sizes !! (top +:+ "/" +:+ dir_name d)
       = Some (tree_size w (top +:+ "/" +:+ dir_name d) d)) /\
    (forall f, In f (files t) ->
       default 0 (sizes !! (top +:+ "/" +:+ f)) = file_size w (top +:+ "/" +:+ f)).
Proof.
  intros Hhid Hsz Htop Hgood. destruct t as [n ds fs].
  assert (Hall : Forall (pass1_spec w a) ds).
  { apply Forall_forall. intros d _. now apply pass1_tree. }
  destruct (pass1_parent w a Hhid Hsz top n ds fs ∅ Htop Hgood Hall)
    as (log & sizes & Hrun & Hroot & _ & Hsub & Hfiles).
  exists log, sizes. repeat split; auto.
Qed.

(** X13. With [-a], on a tree at a normalized path, in which the names of a
    directory are good and differ from one another, the first pass of [size]
    ends normally whatever [os.path.getsize] raises, and records for the
    directory walked the total size of the files below it at any depth, for
    each of its subdirectories the total of that subdirectory, and for each
    of its files the size of the file, a file whose size cannot be read
    counting for nothing. *)
Theorem size_pass1_totals (w : World) (a : Args) (top : string) (t : Tree) :
  hidden a = true ->
  (forall p, os_path_getsize w p <> Raise SystemExit) ->
  good_path top -> good_tree t ->
  exists log sizes,
    for_walk_all a (Size.body1 w a) (walk_bottom_up top t) ∅ = (log, Ok sizes) /\
    sizes !! top = Some (tree_size w top t) /\
    (forall d, In d (subdirs t) ->
       sizes !! (top +:+ "/" +:+ dir_name d)
       = Some (tree_size w (top +:+ "/" +:+ dir_name d) d)) /\
    (forall f, In f (files t) ->
       default 0 (sizes !! (top +:+ "/" +:+ f)) = file_size w (top +:+ "/" +:+ f)).
Proof. apply pass1_totals. Qed.

Lemma small_tree_good : good_path "." /\ good_tree small_tree.
Proof.
  split.
  - repeat split. discriminate.
  - cbn. repeat split; try reflexivity;
      apply (bool_decide_unpack _); vm_compute; reflexivity.
Qed.

Lemma size_pass1_totals_witness :
  let w := world_of "." small_tree ["."] 7 80 in
  let a := mkArgs CMD_SIZE [] None "." false true false None in
  exists log sizes,
    for_walk_all a (Size.body1 w a) (walk_bottom_up "." small_tree) ∅ = (log, Ok sizes) /\
    sizes !! "." = Some (tree_size w "." small_tree) /\
    (forall d, In d (subdirs small_tree) ->
       sizes !! ("." +:+ "/" +:+ dir_name d)
       = Some (tree_size w ("." +:+ "/" +:+ dir_name d) d)) /\
    (forall f, In f (files small_tree) ->
       default 0 (sizes !! ("." +:+ "/" +:+ f)) = file_size w ("." +:+ "/" +:+ f)).
Proof.
  apply (size_pass1_totals (world_of "." small_tree ["."] 7 80)
           (mkArgs CMD_SIZE [] None "." false true false None) "." small_tree).
  - reflexivity.
  - intros p. discriminate.
  - apply small_tree_good.
  - apply small_tree_good.
Defined.

(** ** Size: the report *)

Lemma print_sizes_to_file {A : Type} (w : World) (a : Args) (sizes : gmap string nat)
      (root sep out_file : string) (key : A -> string) (val : A -> nat) (xs : list A) :
  hidden a = true -> truthy (pattern a) = false -> output a = Some out_file ->
  (forall x, In x xs -> default 0 (sizes !! (root +:+ "/" +:+ key x)) = val x) ->
  Size.print_sizes w a sizes root sep (map key xs) =
  (map (fun x => EvWrite (((root +:+ "/" +:+ key x) +:+ sep +:+ " => "
                             +:+ get_byte_string w (val x)) +:+ NL)) xs,
   Ok tt).
Proof.
  intros Hhid Hpat Hout. induction xs as [|x rest IH]; intros Hval; [reflexivity|].
  cbn [map Size.print_sizes]. unfold name_hidden at 1. rewrite Hhid, Hpat.
  cbn [negb andb]. unfold mbind, M_bind, mbind'.
  rewrite (print_line_to_file _ _ _ _ Hout), IH by (intros; apply Hval; now right).
  rewrite (Hval x) by now left. reflexivity.
Qed.



(** ** The elapsed time in the summary *)

Ltac handler_rows H :=
  unfold mbind, M_bind in H;
  repeat lazymatch type of H with
         | mbind' _ _ = _ => apply mbind_Ok in H as (? & ? & ? & _ & H & _)
         | exit1 _ = _ => discriminate H
         | match ?x with _ => _ end = _ => destruct x
         end;
  inversion H; subst; eexists _, _, _; split; reflexivity.

(** X12. When a command ends normally, putting the elapsed time into the
    tables adds one row, [Elapsed Time], after the rows of the first table
    and changes nothing else: no command has a row of that name of its
    own, and the other tables are left as they are. *)
Theorem elapsed_time_last_row (w : World) (a : Args) (td bu : list WalkEntry)
        (log : list Event) (tables : list Table) (elapsed : string) :
  run_command w a td bu = (log, Ok tables) ->
  exists title rows rest,
    tables = (title, rows) :: rest /\
    inject_elapsed tables elapsed =
    Ok ((title, rows ++ [("Elapsed Time", VStr elapsed)]) :: rest).
Proof.
  unfold run_command. destruct (command a); intros H.
  - unfold Search.handler in H. handler_rows H.
  - unfold List_.handler in H. handler_rows H.
  - unfold Size.handler in H. handler_rows H.
  - unfold Rename.handler in H. handler_rows H.
  - unfold Delete.handler in H. handler_rows H.
  - unfold Copy.handler in H. handler_rows H.
  - unfold Move.handler in H. handler_rows H.
Qed.

Lemma elapsed_time_last_row_witness :
  let w := world_of "." small_tree ["."] 7 80 in
  exists log tables,
    run_command w (args0 CMD_LIST) (walk_top_down "." small_tree) [] = (log, Ok tables) /\
    exists title rows rest,
      tables = (title, rows) :: rest /\
      inject_elapsed tables "00:00:01.5000" =
      Ok ((title, rows ++ [("Elapsed Time", VStr "00:00:01.5000")]) :: rest).
Proof.
  eexists _, _. split; [reflexivity|].
  apply (elapsed_time_last_row (world_of "." small_tree ["."] 7 80) (args0 CMD_LIST)
           (walk_top_down "." small_tree) [] _ _ "00:00:01.5000" eq_refl).
Defined.

(** ** The summary box *)

Lemma length_repeat (c : ascii) (n : nat) : String.length (Str.repeat c n) = n.
Proof. induction n as [|n IH]; [reflexivity|]. simpl. now rewrite IH. Qed.

Lemma length_times (c : ascii) (n : Z) :
  Z.of_nat (String.length (times c n)) = Z.max 0 n.
Proof. unfold times. rewrite length_repeat. lia. Qed.

Lemma max_len_bound (xs : list string) (x : string) :
  In x xs -> String.length x <= max_len xs.
Proof.
  unfold max_len. induction xs as [|y rest IH]; intros []; simpl.
  - subst. lia.
  - specialize (IH H). lia.
Qed.

(** X15. When the terminal is at least as wide as the box needs (the longest
    key, three dots, the longest value and four more columns, and no less
    than the title and four columns), the summary is a rectangle: a rule, the
    title, a rule, one line for each entry and a closing rule, every line
    exactly as wide as the box. *)
Theorem print_summary_rectangular (term_width : Z) (title : string)
        (results : list (string * string)) :
  let box_width :=
    Z.max (Z.of_nat (max_len (map fst results)) + 3
           + Z.of_nat (max_len (map snd results)) + 4)
          (Z.of_nat (String.length title) + 4) in
  (box_width <= term_width)%Z ->
  length (print_summary_lines term_width title results) = 4 + length results /\
  forall line, In line (print_summary_lines term_width title results) ->
               Z.of_nat (String.length line) = box_width.
Proof.
  intros box_width Hwide. unfold print_summary_lines. cbv beta zeta.
  set (mk := Z.of_nat (max_len (map fst results))) in *.
  set (mv := Z.of_nat (max_len (map snd results))) in *.
  set (lt := Z.of_nat (String.length title)) in *.
  replace (Z.min (Z.max (mk + 3 + mv + 2 * 2) (lt + 2 + 2)) term_width) with box_width
    by (unfold box_width; lia).
  assert (Hmk : (0 <= mk)%Z) by (unfold mk; lia).
  assert (Hmv : (0 <= mv)%Z) by (unfold mv; lia).
  assert (Hb1 : (mk + 3 + mv + 4 <= box_width)%Z) by (unfold box_width; lia).
  assert (Hb2 : (lt + 4 <= box_width)%Z) by (unfold box_width; lia).
  assert (Hlt : (0 <= lt)%Z) by (unfold lt; lia).
  split.
  - rewrite !length_app, length_map. simpl. lia.
  - assert (Hrule : Z.of_nat (String.length ("+" +:+ times "-" (box_width - 2) +:+ "+"))
                    = box_width).
    { rewrite !length_append, !Nat2Z.inj_add, length_times. simpl. lia. }
    intros line Hin. apply in_app_or in Hin as [Hin | Hin].
    + destruct Hin as [<- | [<- | [<- | []]]]; try exact Hrule.
      destruct (Z.ltb_spec (box_width - 2) (lt + 2)); [lia|].
      rewrite !length_append, !Nat2Z.inj_add, !length_times. fold lt. simpl.
      pose proof (Z.div_pos (box_width - 2 - lt) 2).
      assert ((box_width - 2 - lt) / 2 <= box_width - 2 - lt)%Z
        by (apply Z.div_le_upper_bound; lia).
      lia.
    + apply in_app_or in Hin as [Hin | Hin]; [|destruct Hin as [<- | []]; exact Hrule].
      apply in_map_iff in Hin as ([k v] & <- & Hkv). cbn [fst snd].
      assert (Hk : (Z.of_nat (String.length k) <= mk)%Z).
      { unfold mk. apply inj_le, max_len_bound.
        apply in_map_iff. now exists (k, v). }
      assert (Hv : (Z.of_nat (String.length v) <= mv)%Z).
      { unfold mv. apply inj_le, max_len_bound.
        apply in_map_iff. now exists (k, v). }
      destruct (Z.ltb_spec mk (Z.of_nat (String.length k))); [lia|].
      destruct (Z.ltb_spec (box_width - 2 - (mk + 3)) 1); [lia|].
      destruct (Z.ltb_spec (box_width - 2 - (mk + 3)) (Z.of_nat (String.length v))); [lia|].
      unfold ljust.
      repeat (rewrite length_append || rewrite Nat2Z.inj_add || rewrite length_times).
      simpl. lia.
Qed.

Lemma print_summary_rectangular_witness :
  let rows := [("Directory Count", "1"); ("File Count", "12");
               ("Elapsed Time", "00:00:00.0000")] in
  length (print_summary_lines 80 "Summary" rows) = 4 + length rows /\
  forall line, In line (print_summary_lines 80 "Summary" rows) ->
               Z.of_nat (String.length line) = 35%Z.
Proof.
  apply (print_summary_rectangular 80 "Summary"
           [("Directory Count", "1"); ("File Count", "12");
            ("Elapsed Time", "00:00:00.0000")]).
  vm_compute. discriminate.
Defined.

(** ** Copy and move: what they recover from *)

Lemma try_shutil_ok (ev : Event) (r : result unit) (handler : exn -> M bool) :
  (forall e, r = Raise e -> is_shutil_error e = true) ->
  (forall e, exists l, handler e = (l, Ok false)) ->
  exists l b,
    try_except is_shutil_error (mbind' (sys ev r) (fun _ => mret true)) handler
    = (l, Ok b).
Proof.
  intros Hr Hh. destruct r as [[]|e]; cbn.
  - now eexists _, _.
  - rewrite (Hr e eq_refl). destruct (Hh e) as [l ->]. now eexists _, _.
Qed.

Lemma copy_move_item_ok (w : World) (a : Args) (out_file root name destination : string)
      (is_dir : bool) :
  output a = Some out_file -> shutil_errors_only w ->
  (exists l b, Copy.move_item w a root name destination is_dir = (l, Ok b)) /\
  (exists l b, Move.move_item w a root name destination is_dir = (l, Ok b)).
Proof.
  intros Hout (Htree & Hcopy & Hmove).
  assert (Herr : forall msg, exists l, mbind' (print_error a msg) (fun _ => mret false)
                                       = (l, Ok false)).
  { intros msg. destruct (print_error_ok a msg) as [l ->]. now eexists. }
  unfold Copy.move_item, Move.move_item.
  destruct (name_hidden a name); [split; now exists [], false|].
  destruct (re_search w (pattern_text a) name) as [m|]; [|split; now exists [], false].
  destruct (regex_sub_total m (destination_of w name destination is_dir)) as [to_path ->].
  unfold mbind, M_bind. rewrite !mbind_lift_Ok. split.
  - destruct is_dir.
    + destruct (try_shutil_ok (EvCopytree (root +:+ "/" +:+ name) to_path)
                  (shutil_copytree w (root +:+ "/" +:+ name) to_path)
                  (fun e => mbind' (print_error a ("Could not copy directory "
                       +:+ (root +:+ "/" +:+ name) +:+ " to " +:+ to_path +:+ ": "
                       +:+ exn_str w e)) (fun _ => mret false)))
        as (l & b & ->); [apply Htree | intros e; apply Herr |].
      cbn [mbind']. destruct b; [|now eexists _, _].
      rewrite (print_line_to_file _ _ _ _ Hout). now eexists _, _.
    + destruct (try_shutil_ok (EvCopy2 (root +:+ "/" +:+ name) to_path)
                  (shutil_copy2 w (root +:+ "/" +:+ name) to_path)
                  (fun e => mbind' (print_error a ("Could not copy file "
                       +:+ (root +:+ "/" +:+ name) +:+ " to " +:+ to_path +:+ ": "
                       +:+ exn_str w e)) (fun _ => mret false)))
        as (l & b & ->); [apply Hcopy | intros e; apply Herr |].
      cbn [mbind']. destruct b; [|now eexists _, _].
      rewrite (print_line_to_file _ _ _ _ Hout). now eexists _, _.
  - destruct (try_shutil_ok (EvMove (root +:+ "/" +:+ name) to_path)
                (shutil_move w (root +:+ "/" +:+ name) to_path)
                (fun e => mbind' (print_error a ("Could not move directory "
                     +:+ (root +:+ "/" +:+ name) +:+ " to " +:+ to_path +:+ ": "
                     +:+ exn_str w e)) (fun _ => mret false)))
      as (l & b & ->); [apply Hmove | intros e; apply Herr |].
    cbn [mbind']. destruct b; [|now eexists _, _].
    rewrite (print_line_to_file _ _ _ _ Hout). now eexists _, _.
Qed.



(** ** Search: the run *)

Lemma scan_dirs_ok (w : World) (a : Args) (root : string) (dirs names : list string) :
  exists l names', Search.scan_dirs w a root dirs names = (l, Ok names').
Proof.
  revert names; induction dirs as [|dir rest IH]; intros names; [now exists [], names|].
  cbn [Search.scan_dirs]. destruct (name_hidden a dir); [apply IH|].
  destruct (re_search w (pattern_text a) dir) as [m|]; [|apply IH].
  destruct (split_match m) as [[before match_text] after].
  destruct (print_output_hole w a (root +:+ "/" +:+ before) (after +:+ "/") match_text
              MATCH_COLOR RESET_COLOR) as [ev Hev].
  unfold mbind, M_bind, mbind'. rewrite Hev.
  destruct (IH (names ++ [root +:+ "/" +:+ dir +:+ "/"])) as (l & names' & ->).
  now eexists _, _.
Qed.

Lemma scan_files_ok (w : World) (a : Args) (root contentPattern : string)
      (names : list string) (st : list string * Dict nat) :
  no_system_exit w ->
  exists l st', Search.scan_files w a root contentPattern names st = (l, Ok st').
Proof.
  intros Hw. pose proof Hw as (_ & _ & _ & _ & _ & _ & _ & Hread).
  revert st; induction names as [|file rest IH]; intros st; [now exists [], st|].
  cbn [Search.scan_files]. destruct (name_hidden a file); [apply IH|].
  unfold mbind, M_bind.
  assert (Hscan : forall names' printed,
             exists l st', mbind'
               (if String.eqb contentPattern "" then mret (Some (printed, 0))
                else try_except is_exception
                       (mbind' (sys (EvRead (root +:+ "/" +:+ file))
                                    (read_lines w (root +:+ "/" +:+ file)))
                          (fun contents =>
                             mbind' (Search.scan_lines w a (root +:+ "/" +:+ file)
                                       contentPattern contents 0 printed 0)
                                    (fun r => mret (Some r))))
                       (fun e =>
                          mbind' (print_error a ("Could not read file "
                                    +:+ (root +:+ "/" +:+ file) +:+ ": " +:+ exn_str w e))
                                 (fun _ => mret None)))
               (fun scanned =>
                  match scanned : option (bool * nat) with
                  | None => Search.scan_files w a root contentPattern rest (names', snd st)
                  | Some (printedFileName, hits) =>
                      Search.scan_files w a root contentPattern rest
                        (names',
                         if printedFileName
                         then dict_set (snd st) (root +:+ "/" +:+ file) hits
                         else snd st)
                  end) = (l, Ok st')).
  { intros names' printed.
    assert (exists l r, (if String.eqb contentPattern "" then mret (Some (printed, 0))
                else try_except is_exception
                       (mbind' (sys (EvRead (root +:+ "/" +:+ file))
                                    (read_lines w (root +:+ "/" +:+ file)))
                          (fun contents =>
                             mbind' (Search.scan_lines w a (root +:+ "/" +:+ file)
                                       contentPattern contents 0 printed 0)
                                    (fun r => mret (Some r))))
                       (fun e =>
                          mbind' (print_error a ("Could not read file "
                                    +:+ (root +:+ "/" +:+ file) +:+ ": " +:+ exn_str w e))
                                 (fun _ => mret None))) = (l, Ok r)) as (l & r & ->).
    { destruct (String.eqb contentPattern ""); [now eexists _, _|].
      apply try_except_ok.
      - apply no_exit_bind; [apply no_exit_sys, Hread|]. intros contents.
        destruct (scan_lines_result w a (root +:+ "/" +:+ file) contentPattern
                    contents 0 printed 0) as (l & -> & _).
        apply no_exit_Ok.
      - intros e. destruct (print_error_ok a ("Could not read file "
                    +:+ (root +:+ "/" +:+ file) +:+ ": " +:+ exn_str w e)) as [l ->].
        now eexists _, _. }
    cbn [mbind']. destruct r as [[p h]|].
    - destruct (IH (names', if p then dict_set (snd st) (root +:+ "/" +:+ file) h
                            else snd st)) as (l2 & st' & ->). now eexists _, _.
    - destruct (IH (names', snd st)) as (l2 & st' & ->). now eexists _, _. }
  destruct (truthy (pattern a)).
  - destruct (re_search w (pattern_text a) file) as [m|].
    + destruct (split_match m) as [[before match_text] after].
      destruct (print_output_hole w a (root +:+ "/" +:+ before) after match_text
                  MATCH_COLOR RESET_COLOR) as [ev Hev].
      unfold mbind' at 2. rewrite Hev. unfold mret at 1. cbn [mbind' app].
      destruct (Hscan (fst st ++ [root +:+ "/" +:+ file]) true) as (l & st' & ->).
      now eexists _, _.
    + unfold mret at 1. rewrite mbind_nil_Ok. apply IH.
  - unfold mret at 1. rewrite mbind_nil_Ok. apply Hscan.
Qed.



Lemma fix_path_fixed_points_witness :
  String.length (fix_path "src/lib\\util") <= String.length "src/lib\\util" /\
  fix_path "src/lib/util" = "src/lib/util".
Proof.
  split.
  - apply (fix_path_fixed_points "src/lib\\util").
  - apply (fix_path_fixed_points "src/lib/util"). split; reflexivity.
Defined.
